(** * The diagnostic flow and the webhook store

    A shallow embedding of the server actions of the HubSpot + Resend
    proof of concept:

    - the four steps [createContact], [createDeal],
      [associateDealToContact] and [sendConfirmationEmail], and the
      orchestrator [runDiagnosticFlow] that chains them;
    - the simple contact creation [createHubSpotContact] and the standalone
      test email [sendTestEmail];
    - the webhook route, whose [POST] and [GET] handlers share one
      module-level array.

    The server actions are asynchronous functions that read
    [process.env], call [fetch] and the Resend client, and recover thrown
    errors with [try]/[catch].  They are embedded in a small monad [M]: a
    computation reads the host (environment variables, the clock, what the
    network answers), threads the log of the outgoing calls made so far and
    either returns a value or throws.  The log is kept when a computation
    throws, as a call that was made stays made.  One server action runs
    from start to end on one host: the environment variables do not change
    under it.

    The file gives the definitions first (the webhook route, then the
    flow with the vocabulary of its statements and a few concrete hosts),
    then the proofs about the flow, the proofs about the webhook store, and
    the claims evaluated on concrete inputs. *)

From Stdlib Require Import String Ascii List Bool Arith Lia DecimalString.
Import ListNotations.
Local Open Scope list_scope.
Local Open Scope string_scope.
Set Warnings "-register-all".

Set Implicit Arguments.

(** ** The webhook route *)

Module Webhook.

Section Store.

(** A parsed JSON body; the route stores it without looking inside. *)
Variable json_value : Type.

Record WebhookEntry : Type := {
  id : string;
  payload : json_value;
  receivedAt : string
}.

Definition MAX_WEBHOOKS : nat := 5.

(** What [await request.json()] does: it gives the parsed body, or throws
    (an [Error] with its message, or something else). *)
Inductive Body : Type :=
| Parsed (payload : json_value)
| Unparsable (error : option string).

(** One POST request, with what [crypto.randomUUID()] and
    [new Date().toISOString()] give while it is handled. *)
Record NextRequest : Type := {
  request_json : Body;
  randomUUID : string;
  toISOString : string
}.

(** The JSON answers of the route, with their status. *)
Record PostResponse : Type := {
  post_status : nat;
  post_success : bool;
  post_message : string;
  post_id : option string;
  post_receivedAt : option string;
  post_error : option string
}.

Record GetResponse : Type := {
  get_success : bool;
  webhooks : list WebhookEntry;
  count : nat
}.

(** [webhookStorage.unshift(entry)] *)
Definition unshift (entry : WebhookEntry) (storage : list WebhookEntry) :=
  entry :: storage.

(** [webhookStorage.pop()] *)
Definition pop (storage : list WebhookEntry) := removelast storage.

(** [POST], on the module-level [webhookStorage]: the answer and the
    storage afterwards. *)
Definition POST (request : NextRequest) (webhookStorage : list WebhookEntry)
  : PostResponse * list WebhookEntry :=
  match request_json request with
  | Parsed payload =>
      let entry := {| id := randomUUID request;
                      payload := payload;
                      receivedAt := toISOString request |} in
      (* Add to beginning of array *)
      let storage1 := unshift entry webhookStorage in
      (* Keep only last 5 *)
      let storage2 := if (MAX_WEBHOOKS <? length storage1)%nat
                      then pop storage1 else storage1 in
      ({| post_status := 200;
          post_success := true;
          post_message := "Webhook received successfully";
          post_id := Some (id entry);
          post_receivedAt := Some (receivedAt entry);
          post_error := None |}, storage2)
  | Unparsable error =>
      ({| post_status := 400;
          post_success := false;
          post_message := "Failed to process webhook";
          post_id := None;
          post_receivedAt := None;
          post_error := Some match error with
                             | Some message => message
                             | None => "Unknown error"
                             end |}, webhookStorage)
  end.

Definition GET (webhookStorage : list WebhookEntry) : GetResponse :=
  {| get_success := true;
     webhooks := webhookStorage;
     count := length webhookStorage |}.

(** The storage after a sequence of POST requests, handled in turn. *)
Fixpoint posts (requests : list NextRequest) (storage : list WebhookEntry)
  : list WebhookEntry :=
  match requests with
  | [] => storage
  | request :: later => posts later (snd (POST request storage))
  end.

(** The entries of the requests that were accepted, oldest first. *)
Fixpoint accepted (requests : list NextRequest) : list WebhookEntry :=
  match requests with
  | [] => []
  | request :: later =>
      match request_json request with
      | Parsed payload =>
          {| id := randomUUID request;
             payload := payload;
             receivedAt := toISOString request |} :: accepted later
      | Unparsable _ => accepted later
      end
  end.

(** Whether the body of a request parses. *)
Definition parses (request : NextRequest) : bool :=
  match request_json request with
  | Parsed _ => true
  | Unparsable _ => false
  end.

(** The POST request of a payload. *)
Definition post (p : json_value) (uuid time : string) : NextRequest :=
  {| request_json := Parsed p; randomUUID := uuid; toISOString := time |}.

End Store.

End Webhook.

(** ** The diagnostic flow *)

(** Natural numbers as JavaScript numbers, for concrete runs. *)
Definition nat_truthy (n : nat) : bool := negb (n =? 0)%nat.

Definition nat_toString (n : nat) : string := NilEmpty.string_of_uint (Nat.to_uint n).

Section Flow.

(** *** JavaScript values *)

(** JavaScript numbers are IEEE doubles.  The code never computes with
    them; it only tests a value for truthiness and prints it inside a
    template literal.  Numbers are therefore kept abstract, with these two
    operations. *)
Variable number : Type.
Variable number_truthy : number -> bool.
Variable number_toString : number -> string.

(** What [response.json()] can produce, and [undefined]. An object is the
    list of its own properties; the first binding of a key is the one a
    property read sees. *)
Inductive jsval : Type :=
| JUndefined
| JNull
| JBool (b : bool)
| JNum (n : number)
| JStr (s : string)
| JArr (items : list jsval)
| JObj (fields : list (string * jsval)).

(** A thrown value: an instance of [Error] with its message, or anything
    else. *)
Inductive thrown : Type :=
| JsError (msg : string)
| JsOther (v : jsval).

(** [error instanceof Error ? error.message : fallback] *)
Definition error_message (error : thrown) (fallback : string) : string :=
  match error with
  | JsError msg => msg
  | JsOther _ => fallback
  end.

(** Truthiness, as tested by [if (v)], [!v] and [a || b]. *)
Definition truthy (v : jsval) : bool :=
  match v with
  | JUndefined | JNull => false
  | JBool b => b
  | JNum n => number_truthy n
  | JStr s => negb (s =? "")
  | JArr _ | JObj _ => true
  end.

(** [a || b] *)
Definition js_or (a b : jsval) : jsval := if truthy a then a else b.

(** The string a template literal substitutes for [${v}]. *)
Fixpoint toStr (v : jsval) : string :=
  match v with
  | JUndefined => "undefined"
  | JNull => "null"
  | JBool true => "true"
  | JBool false => "false"
  | JNum n => number_toString n
  | JStr s => s
  | JArr items =>
      (fix join (l : list jsval) : string :=
         match l with
         | [] => ""
         | x :: r =>
             let sx := match x with
                       | JUndefined | JNull => ""
                       | _ => toStr x
                       end in
             match r with
             | [] => sx
             | _ :: _ => sx ++ "," ++ join r
             end
         end) items
  | JObj _ => "[object Object]"
  end.

(** [toStr] is the string of a value whose conversion returns.  The
    conversion of an object calls its [toString]: an object with a property
    of its own under that name (never a function, in a parsed body) cannot
    be converted, and neither can an array that holds one. *)
Fixpoint convertible (v : jsval) : bool :=
  match v with
  | JArr items => forallb convertible items
  | JObj fields => negb (existsb (fun field => fst field =? "toString") fields)
  | _ => true
  end.

Fixpoint lookup_field (key : string) (fields : list (string * jsval)) : jsval :=
  match fields with
  | [] => JUndefined
  | (k, v) :: rest => if k =? key then v else lookup_field key rest
  end.

(** The outcome of evaluating something that may throw. *)
Inductive outcome (A : Type) : Type :=
| Returns (a : A)
| Throws (e : thrown).
Arguments Returns {A} a.
Arguments Throws {A} e.

(** [v.key], for the property names the code reads ([message], [id],
    [properties], [email], ...): reading a property of [null] or
    [undefined] throws a [TypeError]; booleans, numbers, strings and arrays
    have no property of these names. *)
Definition read_prop (v : jsval) (key : string) : outcome jsval :=
  match v with
  | JUndefined | JNull =>
      Throws (JsError ("Cannot read properties of " ++ toStr v
                       ++ " (reading '" ++ key ++ "')"))
  | JObj fields => Returns (lookup_field key fields)
  | _ => Returns JUndefined
  end.

(** [v?.key] never throws. *)
Definition read_prop_opt (v : jsval) (key : string) : jsval :=
  match v with
  | JObj fields => lookup_field key fields
  | _ => JUndefined
  end.

(** [${v}] inside a template literal: the conversion returns the string or
    throws a [TypeError]. *)
Definition print (v : jsval) : outcome string :=
  if convertible v then Returns (toStr v)
  else Throws (JsError "Cannot convert object to primitive value").

(** *** Records of the source *)

Record HubSpotContactData : Type := {
  email : string;
  firstName : string;
  lastName : string
}.

(** [StepResult].  [message] is declared a string, but [data.message ||
    ...] puts any truthy property of the response body there, so it is a
    [jsval] here.  [sr_data = None] is an absent [data]. *)
Record StepResult : Type := {
  sr_step : string;
  sr_success : bool;
  sr_message : jsval;
  sr_data : option jsval
}.

(** [result.data?.key] *)
Definition data_prop (r : StepResult) (key : string) : jsval :=
  match sr_data r with
  | None => JUndefined
  | Some d => read_prop_opt d key
  end.

Record SummaryContact : Type := {
  sc_id : jsval;
  sc_email : string;
  sc_firstName : string;
  sc_lastName : string
}.

Record SummaryDeal : Type := {
  sd_id : jsval;
  sd_name : jsval
}.

Record Summary : Type := {
  contact : SummaryContact;
  deal : SummaryDeal;
  association : string;
  emailSent : bool;
  emailId : jsval
}.

Record DiagnosticFlowResult : Type := {
  success : bool;
  message : string;
  steps : list StepResult;
  summary : option Summary
}.

(** *** The outside world *)

(** The second argument of [fetch].  [body] is the value handed to
    [JSON.stringify]. *)
Record RequestInit : Type := {
  method : string;
  headers : list (string * string);
  body : option jsval
}.

(** A [Response]: its status and what [response.json()] does. *)
Record Response : Type := {
  status : nat;
  json : outcome jsval
}.

(** [response.ok] *)
Definition ok (r : Response) : bool := ((200 <=? status r) && (status r <=? 299))%nat.

(** The values the HTML template of the confirmation email interpolates,
    in the order they appear; the constant markup around them is left
    out. *)
Record EmailHtml : Type := {
  html_firstName : string;
  html_lastName : string;
  html_email : string;
  html_dealName : string;
  html_dealId : string;
  html_sentAt : string
}.

(** The argument of [resend.emails.send]. *)
Record EmailOptions : Type := {
  from : string;
  to : string;
  subject : string;
  html : EmailHtml
}.

(** What [resend.emails.send] resolves to. *)
Record SendResult : Type := {
  send_data : jsval;
  send_error : jsval
}.

(** An outgoing call. [EmailsSend] records the key the client was built
    with. *)
Inductive call : Type :=
| Fetch (url : string) (init : RequestInit)
| EmailsSend (apiKey : string) (options : EmailOptions).

(** The host a server action runs on.  The answers of the network and the
    clock may depend on every call made before.  [new_Resend] is what the
    constructor of the Resend client does with a key: it returns the client
    or throws. *)
Record host : Type := {
  HUBSPOT_ACCESS_TOKEN : option string;
  RESEND_API_KEY : option string;
  clock : list call -> string;
  fetch_reply : list call -> string -> RequestInit -> outcome Response;
  send_reply : list call -> string -> EmailOptions -> outcome SendResult;
  new_Resend : string -> outcome unit
}.

(** *** The monad of server actions *)

Definition M (A : Type) : Type := host -> list call -> outcome A * list call.

Definition ret {A} (a : A) : M A := fun _ log => (Returns a, log).

Definition bind {A B} (m : M A) (k : A -> M B) : M B :=
  fun h log =>
    match m h log with
    | (Returns a, log') => k a h log'
    | (Throws e, log') => (Throws e, log')
    end.

(** [try { body } catch (error) { handler }] *)
Definition try_catch {A} (body : M A) (handler : thrown -> M A) : M A :=
  fun h log =>
    match body h log with
    | (Returns a, log') => (Returns a, log')
    | (Throws e, log') => handler e h log'
    end.

Definition lift {A} (o : outcome A) : M A := fun _ log => (o, log).

Notation "x <- m ;; k" := (bind m (fun x => k))
  (at level 61, m at next level, right associativity).

(** [process.env.NAME] *)
Definition env (var : host -> option string) : M (option string) :=
  fun h log => (Returns (var h), log).

(** [!v] for an environment variable: unset or empty. *)
Definition env_falsy (v : option string) : bool :=
  match v with
  | None => true
  | Some s => s =? ""
  end.

(** [${v}] for an environment variable. *)
Definition env_toStr (v : option string) : string :=
  match v with
  | None => "undefined"
  | Some s => s
  end.

(** [await fetch(url, init)] *)
Definition fetch (url : string) (init : RequestInit) : M Response :=
  fun h log => (fetch_reply h log url init, (log ++ [Fetch url init])%list).

(** [await response.json()] *)
Definition response_json (r : Response) : M jsval := lift (json r).

(** [await response.json().catch(() => ({}))] *)
Definition response_json_or_empty (r : Response) : M jsval :=
  ret (match json r with
       | Returns v => v
       | Throws _ => JObj []
       end).

(** [await resend.emails.send(options)], on a client built with
    [apiKey]. *)
Definition emails_send (apiKey : string) (options : EmailOptions) : M SendResult :=
  fun h log => (send_reply h log apiKey options, (log ++ [EmailsSend apiKey options])%list).

(** [new Date().toISOString()] *)
Definition now : M string := fun h log => (Returns (clock h log), log).

(** [${response.status}] *)
Definition status_toStr (r : Response) : string :=
  NilEmpty.string_of_uint (Nat.to_uint (status r)).

Definition dquote : string := String (ascii_of_nat 34) EmptyString.

(** *** The four steps *)

(** [const getAccessToken = () => process.env.HUBSPOT_ACCESS_TOKEN] *)
Definition getAccessToken : M (option string) := env HUBSPOT_ACCESS_TOKEN.

(** The request of step 1. *)
Definition contactsUrl : string := "https://api.hubapi.com/crm/v3/objects/contacts".

Definition contactInit (accessToken : option string)
    (formData : HubSpotContactData) : RequestInit :=
  {| method := "POST";
     headers := [("Content-Type", "application/json");
                 ("Authorization", "Bearer " ++ env_toStr accessToken)];
     body := Some (JObj [("properties",
               JObj [("email", JStr (email formData));
                     ("firstname", JStr (firstName formData));
                     ("lastname", JStr (lastName formData))])]) |}.

(** Step 1: Create Contact *)
Definition createContact (formData : HubSpotContactData) : M StepResult :=
  accessToken <- getAccessToken ;;
  try_catch
    (response <- fetch contactsUrl (contactInit accessToken formData) ;;
     data <- response_json response ;;
     if negb (ok response) then
       data_message <- lift (read_prop data "message") ;;
       ret {| sr_step := "Create Contact";
              sr_success := false;
              sr_message := js_or data_message
                  (JStr ("HubSpot API error: " ++ status_toStr response));
              sr_data := Some data |}
     else
       data_id <- lift (read_prop data "id") ;;
       id_text <- lift (print data_id) ;;
       data_properties <- lift (read_prop data "properties") ;;
       ret {| sr_step := "Create Contact";
              sr_success := true;
              sr_message := JStr ("Contact created (ID: " ++ id_text ++ ")");
              sr_data := Some (JObj
                [("id", data_id);
                 ("email", read_prop_opt data_properties "email");
                 ("firstName", read_prop_opt data_properties "firstname");
                 ("lastName", read_prop_opt data_properties "lastname")]) |})
    (fun error =>
       ret {| sr_step := "Create Contact";
              sr_success := false;
              sr_message := JStr (error_message error "Failed to create contact");
              sr_data := None |}).

(** The request of step 2. *)
Definition dealsUrl : string := "https://api.hubapi.com/crm/v3/objects/deals".

Definition dealInit (accessToken : option string) (dealName : string) : RequestInit :=
  {| method := "POST";
     headers := [("Content-Type", "application/json");
                 ("Authorization", "Bearer " ++ env_toStr accessToken)];
     body := Some (JObj [("properties",
               JObj [("dealname", JStr dealName);
                     ("pipeline", JStr "default");
                     ("dealstage", JStr "appointmentscheduled");
                     ("amount", JStr "0")])]) |}.

(** Step 2: Create Deal *)
Definition createDeal (firstName lastName : string) : M StepResult :=
  accessToken <- getAccessToken ;;
  let dealName := "Diagnostic - " ++ firstName ++ " " ++ lastName in
  try_catch
    (response <- fetch dealsUrl (dealInit accessToken dealName) ;;
     data <- response_json response ;;
     if negb (ok response) then
       data_message <- lift (read_prop data "message") ;;
       ret {| sr_step := "Create Deal";
              sr_success := false;
              sr_message := js_or data_message
                  (JStr ("HubSpot API error: " ++ status_toStr response));
              sr_data := Some data |}
     else
       data_id <- lift (read_prop data "id") ;;
       id_text <- lift (print data_id) ;;
       data_properties <- lift (read_prop data "properties") ;;
       ret {| sr_step := "Create Deal";
              sr_success := true;
              sr_message := JStr ("Deal created (ID: " ++ id_text
                                  ++ ", Name: " ++ dquote ++ dealName ++ dquote ++ ")");
              sr_data := Some (JObj
                [("id", data_id);
                 ("name", JStr dealName);
                 ("pipeline", read_prop_opt data_properties "pipeline");
                 ("dealstage", read_prop_opt data_properties "dealstage")]) |})
    (fun error =>
       ret {| sr_step := "Create Deal";
              sr_success := false;
              sr_message := JStr (error_message error "Failed to create deal");
              sr_data := None |}).

(** The address of the association request. *)
Definition associationUrl (dealId contactId : jsval) : string :=
  "https://api.hubapi.com/crm/v3/objects/deals/" ++ toStr dealId
  ++ "/associations/contacts/" ++ toStr contactId ++ "/deal_to_contact".

Definition associationInit (accessToken : option string) : RequestInit :=
  {| method := "PUT";
     headers := [("Authorization", "Bearer " ++ env_toStr accessToken)];
     body := None |}.

(** Step 3: Associate Deal to Contact.  The two ids are declared strings;
    the orchestrator, its only caller, passes what [data?.id] gave in steps
    1 and 2, cast: values these steps have printed in their messages, so
    values that can be converted.  The template literals of this step and of
    step 4 are therefore written with [toStr]. *)
Definition associateDealToContact (dealId contactId : jsval) : M StepResult :=
  accessToken <- getAccessToken ;;
  try_catch
    (response <- fetch (associationUrl dealId contactId)
                       (associationInit accessToken) ;;
     if negb (ok response) then
       data <- response_json_or_empty response ;;
       data_message <- lift (read_prop data "message") ;;
       ret {| sr_step := "Associate Deal to Contact";
              sr_success := false;
              sr_message := js_or data_message
                  (JStr ("HubSpot API error: " ++ status_toStr response));
              sr_data := Some data |}
     else
       ret {| sr_step := "Associate Deal to Contact";
              sr_success := true;
              sr_message := JStr ("Deal " ++ toStr dealId
                                  ++ " associated to Contact " ++ toStr contactId);
              sr_data := Some (JObj [("dealId", dealId);
                                     ("contactId", contactId)]) |})
    (fun error =>
       ret {| sr_step := "Associate Deal to Contact";
              sr_success := false;
              sr_message := JStr (error_message error
                                    "Failed to associate deal to contact");
              sr_data := None |}).

(** The client [new Resend(apiKey)] gives when it returns: the key it was
    built with. *)
Definition Resend (apiKey : option string) : string :=
  match apiKey with
  | Some key => key
  | None => ""
  end.

(** [new Resend(apiKey)]: the constructor returns the client or throws, as
    the host has it. *)
Definition construct_Resend (apiKey : option string) : M string :=
  fun h log =>
    match new_Resend h (Resend apiKey) with
    | Returns _ => (Returns (Resend apiKey), log)
    | Throws e => (Throws e, log)
    end.

(** The email of step 4. *)
Definition confirmationEmail (toEmail : string) (contactData : HubSpotContactData)
    (dealData : SummaryDeal) (sentAt : string) : EmailOptions :=
  {| from := "QuantaLynk Diagnostic <noreply@updates.quantalynk.com>";
     to := toEmail;
     subject := "QuantaLynk Diagnostic - Results for " ++ firstName contactData;
     html := {| html_firstName := firstName contactData;
                html_lastName := lastName contactData;
                html_email := email contactData;
                html_dealName := toStr (sd_name dealData);
                html_dealId := toStr (sd_id dealData);
                html_sentAt := sentAt |} |}.

(** Step 4: Send Confirmation Email (calls Resend).  Two expressions of
    the source stand outside its [try].  The dynamic [import("resend")]
    loads a dependency bundled with the application and has no effect to
    record.  [new Resend(apiKey)] is reached only with a key that is not
    empty; when it throws, nothing catches the error in this step. *)
Definition sendConfirmationEmail (toEmail : string)
    (contactData : HubSpotContactData) (dealData : SummaryDeal) : M StepResult :=
  apiKey <- env RESEND_API_KEY ;;
  if env_falsy apiKey then
    ret {| sr_step := "Send Confirmation Email";
           sr_success := false;
           sr_message := JStr "Resend API key is not configured";
           sr_data := None |}
  else
  resend <- construct_Resend apiKey ;;
  try_catch
    (sentAt <- now ;;
     r <- emails_send resend
            (confirmationEmail toEmail contactData dealData sentAt) ;;
     let data := send_data r in
     let error := send_error r in
     if truthy error then
       error_msg <- lift (read_prop error "message") ;;
       ret {| sr_step := "Send Confirmation Email";
              sr_success := false;
              sr_message := js_or error_msg (JStr "Failed to send email");
              sr_data := Some error |}
     else
       ret {| sr_step := "Send Confirmation Email";
              sr_success := true;
              sr_message := JStr ("Confirmation email sent to " ++ toEmail);
              sr_data := Some (JObj [("id", read_prop_opt data "id");
                                     ("sentTo", JStr toEmail)]) |})
    (fun error =>
       ret {| sr_step := "Send Confirmation Email";
              sr_success := false;
              sr_message := JStr (error_message error "Failed to send email");
              sr_data := None |}).

(** *** The orchestrator *)

(** [steps.push(r)] *)
Definition push (steps : list StepResult) (r : StepResult) : list StepResult :=
  (steps ++ [r])%list.

(** Main function: Run Full Diagnostic Flow *)
Definition runDiagnosticFlow (formData : HubSpotContactData)
    (notificationEmail : string) : M DiagnosticFlowResult :=
  accessToken <- getAccessToken ;;
  if env_falsy accessToken then
    ret {| success := false;
           message := "HubSpot access token is not configured";
           steps := [];
           summary := None |}
  else
  let steps0 : list StepResult := [] in
  (* Step 1: Create Contact *)
  contactResult <- createContact formData ;;
  let steps1 := push steps0 contactResult in
  if negb (sr_success contactResult) then
    ret {| success := false;
           message := "Flow failed at: Create Contact";
           steps := steps1;
           summary := None |}
  else
  let contactId := data_prop contactResult "id" in
  let contactData := {| email := email formData;
                        firstName := firstName formData;
                        lastName := lastName formData |} in
  (* Step 2: Create Deal *)
  dealResult <- createDeal (firstName formData) (lastName formData) ;;
  let steps2 := push steps1 dealResult in
  if negb (sr_success dealResult) then
    ret {| success := false;
           message := "Flow failed at: Create Deal";
           steps := steps2;
           summary := None |}
  else
  let dealId := data_prop dealResult "id" in
  let dealName := data_prop dealResult "name" in
  (* Step 3: Associate Deal to Contact *)
  associationResult <- associateDealToContact dealId contactId ;;
  let steps3 := push steps2 associationResult in
  if negb (sr_success associationResult) then
    ret {| success := false;
           message := "Flow failed at: Associate Deal to Contact";
           steps := steps3;
           summary := None |}
  else
  (* Step 4: Send Confirmation Email *)
  emailResult <- sendConfirmationEmail notificationEmail contactData
                   {| sd_id := dealId; sd_name := dealName |} ;;
  let steps4 := push steps3 emailResult in
  let allSuccessful := forallb sr_success steps4 in
  ret {| success := allSuccessful;
         message := if allSuccessful
                    then "Full diagnostic flow completed successfully!"
                    else "Flow completed with some errors";
         steps := steps4;
         summary := Some
           {| contact := {| sc_id := contactId;
                            sc_email := email contactData;
                            sc_firstName := firstName contactData;
                            sc_lastName := lastName contactData |};
              deal := {| sd_id := dealId; sd_name := dealName |};
              association := if sr_success associationResult
                             then "success" else "failed";
              emailSent := sr_success emailResult;
              emailId := data_prop emailResult "id" |} |}.

(** *** The simple contact creation *)

(** What [createHubSpotContact] resolves to. *)
Record ContactResponse : Type := {
  cr_success : bool;
  cr_message : jsval;
  cr_data : option jsval
}.

(** Keep the simple contact creation for backwards compatibility *)
Definition createHubSpotContact (formData : HubSpotContactData) : M ContactResponse :=
  result <- createContact formData ;;
  ret {| cr_success := sr_success result;
         cr_message := sr_message result;
         cr_data := sr_data result |}.

(** *** The standalone test email *)

(** [s.includes(sub)] *)
Definition includes (s sub : string) : bool :=
  match index 0 sub s with
  | Some _ => true
  | None => false
  end.

Record ResendResponse : Type := {
  rr_success : bool;
  rr_message : jsval;
  rr_data : option jsval
}.

(** The argument of [resend.emails.send] for the test email.  Its HTML
    template interpolates one value, the time of sending. *)
Record TestEmailOptions : Type := {
  test_from : string;
  test_to : string;
  test_subject : string;
  test_html_sentAt : string
}.

(** A test email handed to the client built with [apiKey]. *)
Record TestSend : Type := {
  test_apiKey : string;
  test_options : TestEmailOptions
}.

(** The host of the test email action: the key, the clock, what the
    provider answers, which may depend on the emails sent before, and what
    the constructor of the client does with a key. *)
Record mailer : Type := {
  mailer_RESEND_API_KEY : option string;
  mailer_clock : list TestSend -> string;
  mailer_reply : list TestSend -> string -> TestEmailOptions -> outcome SendResult;
  mailer_new_Resend : string -> outcome unit
}.

Definition testEmail (toEmail sentAt : string) : TestEmailOptions :=
  {| test_from := "QuantaLynk <noreply@updates.quantalynk.com>";
     test_to := toEmail;
     test_subject := "QuantaLynk POC - Test Email";
     test_html_sentAt := sentAt |}.

(** [sendTestEmail], with the emails sent so far threaded through.  As in
    step 4, [new Resend(apiKey)] stands before the [try]: when it throws,
    the action throws. *)
Definition sendTestEmail (toEmail : string) (m : mailer) (sent : list TestSend)
  : outcome ResendResponse * list TestSend :=
  let apiKey := mailer_RESEND_API_KEY m in
  if env_falsy apiKey then
    (Returns {| rr_success := false;
                rr_message := JStr "Resend API key is not configured";
                rr_data := None |}, sent)
  else if (toEmail =? "") || negb (includes toEmail "@") then
    (Returns {| rr_success := false;
                rr_message := JStr "Please enter a valid email address";
                rr_data := None |}, sent)
  else
  match mailer_new_Resend m (Resend apiKey) with
  | Throws constructor_error => (Throws constructor_error, sent)
  | Returns _ =>
  let resend := Resend apiKey in
  let options := testEmail toEmail (mailer_clock m sent) in
  let catch error :=
    Returns {| rr_success := false;
               rr_message := JStr (error_message error "Failed to send email");
               rr_data := None |} in
  (match mailer_reply m sent resend options with
   | Throws error => catch error
   | Returns r =>
       let data := send_data r in
       let error := send_error r in
       if truthy error then
         match read_prop error "message" with
         | Throws thrown_error => catch thrown_error
         | Returns error_msg =>
             Returns {| rr_success := false;
                        rr_message := js_or error_msg (JStr "Failed to send email");
                        rr_data := Some error |}
         end
       else
         Returns {| rr_success := true;
                    rr_message := JStr ("Test email sent successfully to "
                                        ++ toEmail ++ "!");
                    rr_data := Some (JObj [("id", read_prop_opt data "id");
                                           ("sentTo", JStr toEmail)]) |}
   end,
   (sent ++ [{| test_apiKey := resend; test_options := options |}])%list)
  end.

(** *** Vocabulary of the statements *)

(** The log after one more call. *)
Definition logged (log : list call) (c : call) : list call := (log ++ [c])%list.

(** A failed step result without data, as every [catch] builds it. *)
Definition caught (step : string) (error : thrown) (fallback : string) : StepResult :=
  {| sr_step := step;
     sr_success := false;
     sr_message := JStr (error_message error fallback);
     sr_data := None |}.

(** An error thrown by [o] is surfaced in the step result [r]. *)
Definition surfaced {A} (o : outcome A) (step fallback : string) (r : StepResult) : Prop :=
  forall e, o = Throws e -> r = caught step e fallback.

(** The values the orchestrator hands from one step to the next. *)
Definition flowContactData (fd : HubSpotContactData) : HubSpotContactData :=
  {| email := email fd; firstName := firstName fd; lastName := lastName fd |}.

Definition flowDealData (dealResult : StepResult) : SummaryDeal :=
  {| sd_id := data_prop dealResult "id"; sd_name := data_prop dealResult "name" |}.

(** The result of an early return. *)
Definition aborted (at_step : string) (steps : list StepResult) : DiagnosticFlowResult :=
  {| success := false;
     message := "Flow failed at: " ++ at_step;
     steps := steps;
     summary := None |}.

(** The result once the email step has been attempted, the first three
    steps having succeeded. *)
Definition completed (fd : HubSpotContactData)
    (contactResult dealResult associationResult emailResult : StepResult)
  : DiagnosticFlowResult :=
  {| success := sr_success emailResult;
     message := if sr_success emailResult
                then "Full diagnostic flow completed successfully!"
                else "Flow completed with some errors";
     steps := [contactResult; dealResult; associationResult; emailResult];
     summary := Some
       {| contact := {| sc_id := data_prop contactResult "id";
                        sc_email := email fd;
                        sc_firstName := firstName fd;
                        sc_lastName := lastName fd |};
          deal := flowDealData dealResult;
          association := "success";
          emailSent := sr_success emailResult;
          emailId := data_prop emailResult "id" |} |}.

(** The five exit paths of the orchestrator: every run that returns takes
    one of them. *)
Inductive FlowRun (h : host) (log : list call) (fd : HubSpotContactData)
    (notificationEmail : string) : DiagnosticFlowResult -> list call -> Prop :=
| RunNoToken :
    env_falsy (HUBSPOT_ACCESS_TOKEN h) = true ->
    FlowRun h log fd notificationEmail
      {| success := false;
         message := "HubSpot access token is not configured";
         steps := [];
         summary := None |} log
| RunContactFailed r1 log1 :
    env_falsy (HUBSPOT_ACCESS_TOKEN h) = false ->
    createContact fd h log = (Returns r1, log1) ->
    sr_success r1 = false ->
    FlowRun h log fd notificationEmail (aborted "Create Contact" [r1]) log1
| RunDealFailed r1 log1 r2 log2 :
    env_falsy (HUBSPOT_ACCESS_TOKEN h) = false ->
    createContact fd h log = (Returns r1, log1) ->
    sr_success r1 = true ->
    createDeal (firstName fd) (lastName fd) h log1 = (Returns r2, log2) ->
    sr_success r2 = false ->
    FlowRun h log fd notificationEmail (aborted "Create Deal" [r1; r2]) log2
| RunAssociationFailed r1 log1 r2 log2 r3 log3 :
    env_falsy (HUBSPOT_ACCESS_TOKEN h) = false ->
    createContact fd h log = (Returns r1, log1) ->
    sr_success r1 = true ->
    createDeal (firstName fd) (lastName fd) h log1 = (Returns r2, log2) ->
    sr_success r2 = true ->
    associateDealToContact (data_prop r2 "id") (data_prop r1 "id") h log2
    = (Returns r3, log3) ->
    sr_success r3 = false ->
    FlowRun h log fd notificationEmail
      (aborted "Associate Deal to Contact" [r1; r2; r3]) log3
| RunEmailAttempted r1 log1 r2 log2 r3 log3 r4 log4 :
    env_falsy (HUBSPOT_ACCESS_TOKEN h) = false ->
    createContact fd h log = (Returns r1, log1) ->
    sr_success r1 = true ->
    createDeal (firstName fd) (lastName fd) h log1 = (Returns r2, log2) ->
    sr_success r2 = true ->
    associateDealToContact (data_prop r2 "id") (data_prop r1 "id") h log2
    = (Returns r3, log3) ->
    sr_success r3 = true ->
    sendConfirmationEmail notificationEmail (flowContactData fd) (flowDealData r2)
      h log3 = (Returns r4, log4) ->
    FlowRun h log fd notificationEmail (completed fd r1 r2 r3 r4) log4.

(** The names of the four steps, in the order they run. *)
Definition stepNames : list string :=
  ["Create Contact"; "Create Deal"; "Associate Deal to Contact";
   "Send Confirmation Email"].

(** The calls of a run that started on [log] and returned the step results
    [steps]: one request for each CRM step that ran, then the email when a
    fourth step ran with the key configured. *)
Definition flowCalls (h : host) (log : list call) (fd : HubSpotContactData)
    (notificationEmail : string) (steps : list StepResult) : list call :=
  let token := HUBSPOT_ACCESS_TOKEN h in
  let call1 := Fetch contactsUrl (contactInit token fd) in
  let call2 := Fetch dealsUrl
                 (dealInit token ("Diagnostic - " ++ firstName fd ++ " " ++ lastName fd)) in
  match steps with
  | [] => []
  | [_] => [call1]
  | [_; _] => [call1; call2]
  | r1 :: r2 :: _ :: later =>
      let call3 := Fetch (associationUrl (data_prop r2 "id") (data_prop r1 "id"))
                     (associationInit token) in
      match later with
      | [] => [call1; call2; call3]
      | _ :: _ =>
          if env_falsy (RESEND_API_KEY h) then [call1; call2; call3]
          else [call1; call2; call3;
                EmailsSend (Resend (RESEND_API_KEY h))
                  (confirmationEmail notificationEmail (flowContactData fd)
                     (flowDealData r2)
                     (clock h (log ++ [call1; call2; call3])%list))]
      end
  end.

(** The results of the success branches of the CRM steps, from the body
    [data] of the answer. *)
Definition contactCreated (data : jsval) : StepResult :=
  {| sr_step := "Create Contact";
     sr_success := true;
     sr_message := JStr ("Contact created (ID: "
                         ++ toStr (read_prop_opt data "id") ++ ")");
     sr_data := Some (JObj
       [("id", read_prop_opt data "id");
        ("email", read_prop_opt (read_prop_opt data "properties") "email");
        ("firstName", read_prop_opt (read_prop_opt data "properties") "firstname");
        ("lastName", read_prop_opt (read_prop_opt data "properties") "lastname")]) |}.

Definition dealCreated (dealName : string) (data : jsval) : StepResult :=
  {| sr_step := "Create Deal";
     sr_success := true;
     sr_message := JStr ("Deal created (ID: " ++ toStr (read_prop_opt data "id")
                         ++ ", Name: " ++ dquote ++ dealName ++ dquote ++ ")");
     sr_data := Some (JObj
       [("id", read_prop_opt data "id");
        ("name", JStr dealName);
        ("pipeline", read_prop_opt (read_prop_opt data "properties") "pipeline");
        ("dealstage", read_prop_opt (read_prop_opt data "properties") "dealstage")]) |}.

(** The result of the branch for an answer that is not 2xx, from its
    status and its body. *)
Definition crmRefused (step : string) (response : Response) (data : jsval) : StepResult :=
  {| sr_step := step;
     sr_success := false;
     sr_message := js_or (read_prop_opt data "message")
                     (JStr ("HubSpot API error: " ++ status_toStr response));
     sr_data := Some data |}.

(** A body the steps can read properties of. *)
Definition readable (data : jsval) : Prop := data <> JNull /\ data <> JUndefined.

(** The results of the branches of steps 3 and 4 that do not end in a
    [catch]. *)
Definition associated (dealId contactId : jsval) : StepResult :=
  {| sr_step := "Associate Deal to Contact";
     sr_success := true;
     sr_message := JStr ("Deal " ++ toStr dealId
                         ++ " associated to Contact " ++ toStr contactId);
     sr_data := Some (JObj [("dealId", dealId); ("contactId", contactId)]) |}.

Definition emailNotConfigured : StepResult :=
  {| sr_step := "Send Confirmation Email";
     sr_success := false;
     sr_message := JStr "Resend API key is not configured";
     sr_data := None |}.

Definition emailRejected (error : jsval) : StepResult :=
  {| sr_step := "Send Confirmation Email";
     sr_success := false;
     sr_message := js_or (read_prop_opt error "message") (JStr "Failed to send email");
     sr_data := Some error |}.

Definition emailDelivered (toEmail : string) (data : jsval) : StepResult :=
  {| sr_step := "Send Confirmation Email";
     sr_success := true;
     sr_message := JStr ("Confirmation email sent to " ++ toEmail);
     sr_data := Some (JObj [("id", read_prop_opt data "id");
                            ("sentTo", JStr toEmail)]) |}.

(** The body step 3 reads from an answer that is not 2xx. *)
Definition tolerantBody (response : Response) : jsval :=
  match json response with
  | Returns data => data
  | Throws _ => JObj []
  end.

(** *** Concrete hosts

    A few hosts to run the flow on.  Their answers hold no number, so they
    are hosts for any type of numbers. *)

Definition demo_formData : HubSpotContactData :=
  {| email := "ada@example.com"; firstName := "Ada"; lastName := "Lovelace" |}.

Definition demo_notificationEmail : string := "ops@example.com".

Definition demo_new_year (log : list call) : string := "2024-01-01T00:00:00.000Z".

(** A CRM that creates contact 101 and deal 202 and accepts the
    association. *)
Definition demo_crm (log : list call) (url : string)
    (init : RequestInit) : outcome Response :=
  if url =? contactsUrl then
    Returns {| status := 201;
               json := Returns (JObj [("id", JStr "101");
                                      ("properties",
                                       JObj [("email", JStr "ada@example.com");
                                             ("firstname", JStr "Ada");
                                             ("lastname", JStr "Lovelace")])]) |}
  else if url =? dealsUrl then
    Returns {| status := 201;
               json := Returns (JObj [("id", JStr "202");
                                      ("properties",
                                       JObj [("pipeline", JStr "default");
                                             ("dealstage",
                                              JStr "appointmentscheduled")])]) |}
  else
    Returns {| status := 200; json := Returns (JObj []) |}.

(** A CRM that refuses the contact, then the deal, then the association. *)
Definition demo_refusal : Response :=
  {| status := 409; json := Returns (JObj [("message", JStr "Conflict")]) |}.

Definition demo_crm_refusing (refused : string) (log : list call) (url : string)
    (init : RequestInit) : outcome Response :=
  if url =? refused then Returns demo_refusal else demo_crm log url init.

(** A CRM that answers the association with 404 and the body [null]. *)
Definition demo_crm_null_404 (log : list call) (url : string)
    (init : RequestInit) : outcome Response :=
  if (url =? contactsUrl) || (url =? dealsUrl) then demo_crm log url init
  else Returns {| status := 404; json := Returns JNull |}.

Definition demo_mail (log : list call) (apiKey : string)
    (options : EmailOptions) : outcome SendResult :=
  Returns {| send_data := JObj [("id", JStr "em_1")]; send_error := JNull |}.

Definition demo_mail_rejecting (log : list call) (apiKey : string)
    (options : EmailOptions) : outcome SendResult :=
  Returns {| send_data := JNull;
             send_error := JObj [("message", JStr "Domain is not verified")] |}.

Definition demo_healthy : host :=
  {| HUBSPOT_ACCESS_TOKEN := Some "pat-1";
     RESEND_API_KEY := Some "re_1";
     clock := demo_new_year;
     fetch_reply := demo_crm;
     send_reply := demo_mail;
     new_Resend := fun _ => Returns tt |}.

Definition demo_email_down : host :=
  {| HUBSPOT_ACCESS_TOKEN := Some "pat-1";
     RESEND_API_KEY := Some "re_1";
     clock := demo_new_year;
     fetch_reply := demo_crm;
     send_reply := demo_mail_rejecting;
     new_Resend := fun _ => Returns tt |}.

Definition demo_refusing (refused : string) : host :=
  {| HUBSPOT_ACCESS_TOKEN := Some "pat-1";
     RESEND_API_KEY := Some "re_1";
     clock := demo_new_year;
     fetch_reply := demo_crm_refusing refused;
     send_reply := demo_mail;
     new_Resend := fun _ => Returns tt |}.

Definition demo_null_404 : host :=
  {| HUBSPOT_ACCESS_TOKEN := Some "pat-1";
     RESEND_API_KEY := Some "re_1";
     clock := demo_new_year;
     fetch_reply := demo_crm_null_404;
     send_reply := demo_mail;
     new_Resend := fun _ => Returns tt |}.

Definition demo_unconfigured : host :=
  {| HUBSPOT_ACCESS_TOKEN := None;
     RESEND_API_KEY := None;
     clock := demo_new_year;
     fetch_reply := demo_crm;
     send_reply := demo_mail;
     new_Resend := fun _ => Returns tt |}.

(** A host without network: every [fetch] throws. *)
Definition demo_offline : host :=
  {| HUBSPOT_ACCESS_TOKEN := Some "pat-1";
     RESEND_API_KEY := Some "re_1";
     clock := demo_new_year;
     fetch_reply := fun _ _ _ => Throws (JsError "fetch failed");
     send_reply := demo_mail;
     new_Resend := fun _ => Returns tt |}.


(** A CRM that creates the contact but answers without its [id], and
    answers the association with 204 and an empty body, which does not
    parse. *)
Definition demo_crm_terse (log : list call) (url : string)
    (init : RequestInit) : outcome Response :=
  if url =? contactsUrl then
    Returns {| status := 201; json := Returns (JObj [("status", JStr "created")]) |}
  else if url =? dealsUrl then demo_crm log url init
  else
    Returns {| status := 204;
               json := Throws (JsError "Unexpected end of JSON input") |}.

Definition demo_terse : host :=
  {| HUBSPOT_ACCESS_TOKEN := Some "pat-1";
     RESEND_API_KEY := Some "re_1";
     clock := demo_new_year;
     fetch_reply := demo_crm_terse;
     send_reply := demo_mail;
     new_Resend := fun _ => Returns tt |}.

(** Hosts of the test email action: one that delivers, one without the
    key. *)
Definition demo_mailer : mailer :=
  {| mailer_RESEND_API_KEY := Some "re_1";
     mailer_clock := fun _ => "2024-01-01T00:00:00.000Z";
     mailer_reply := fun _ _ _ =>
       Returns {| send_data := JObj [("id", JStr "em_2")]; send_error := JNull |};
     mailer_new_Resend := fun _ => Returns tt |}.

Definition demo_mailer_unconfigured : mailer :=
  {| mailer_RESEND_API_KEY := None;
     mailer_clock := fun _ => "2024-01-01T00:00:00.000Z";
     mailer_reply := fun _ _ _ =>
       Returns {| send_data := JObj [("id", JStr "em_2")]; send_error := JNull |};
     mailer_new_Resend := fun _ => Returns tt |}.

(** A host whose email key holds a character that no header value may
    hold: the constructor of the client throws on it. *)
Definition demo_bad_email_key : host :=
  {| HUBSPOT_ACCESS_TOKEN := Some "pat-1";
     RESEND_API_KEY := Some "re_€";
     clock := demo_new_year;
     fetch_reply := demo_crm;
     send_reply := demo_mail;
     new_Resend := fun _ =>
       Throws (JsError "Cannot convert argument to a ByteString") |}.

Definition demo_mailer_bad_key : mailer :=
  {| mailer_RESEND_API_KEY := Some "re_€";
     mailer_clock := fun _ => "2024-01-01T00:00:00.000Z";
     mailer_reply := fun _ _ _ =>
       Returns {| send_data := JObj [("id", JStr "em_2")]; send_error := JNull |};
     mailer_new_Resend := fun _ =>
       Throws (JsError "Cannot convert argument to a ByteString") |}.

(** A CRM that answers the contact request with an [id] that cannot be
    printed: an object with a [toString] property of its own. *)
Definition demo_crm_odd_id (log : list call) (url : string)
    (init : RequestInit) : outcome Response :=
  if url =? contactsUrl then
    Returns {| status := 201;
               json := Returns (JObj [("id", JObj [("toString", JStr "x")])]) |}
  else demo_crm log url init.

Definition demo_odd_id : host :=
  {| HUBSPOT_ACCESS_TOKEN := Some "pat-1";
     RESEND_API_KEY := Some "re_1";
     clock := demo_new_year;
     fetch_reply := demo_crm_odd_id;
     send_reply := demo_mail;
     new_Resend := fun _ => Returns tt |}.

(** A CRM that answers the deal request with an [id] that cannot be
    printed: an array that holds an object with a [toString] property. *)
Definition demo_crm_odd_deal_id (log : list call) (url : string)
    (init : RequestInit) : outcome Response :=
  if url =? dealsUrl then
    Returns {| status := 201;
               json := Returns (JObj [("id", JArr [JObj [("toString", JNull)]])]) |}
  else demo_crm log url init.

Definition demo_odd_deal_id : host :=
  {| HUBSPOT_ACCESS_TOKEN := Some "pat-1";
     RESEND_API_KEY := Some "re_1";
     clock := demo_new_year;
     fetch_reply := demo_crm_odd_deal_id;
     send_reply := demo_mail;
     new_Resend := fun _ => Returns tt |}.

Definition demo_run (h : host)
  : outcome DiagnosticFlowResult * list call :=
  runDiagnosticFlow demo_formData demo_notificationEmail h [].

(** ** Proofs about the flow *)

(** Unfolds the monad in the body of a step. *)
Ltac run_step :=
  unfold getAccessToken, env, now, fetch, emails_send, response_json,
    response_json_or_empty, lift, bind, try_catch, ret, logged, caught;
  cbn beta iota.

(** Case analysis on every answer of the host and on every test. *)
Ltac split_outcome :=
  repeat match goal with
    | |- context [match ?o with Returns _ => _ | Throws _ => _ end] =>
        let E := fresh "E" in destruct o eqn:E; cbn beta iota
    | |- context [if ?b then _ else _] =>
        let E := fresh "E" in destruct b eqn:E; cbn beta iota
    end.

(** Step 1 always returns a result named after the step, and makes exactly
    one request.  The result is a success only when the request was
    answered with a 2xx status and a body that parses; an error thrown by
    [fetch] or by [response.json()] is surfaced in it. *)
Lemma createContact_returns (h : host) (log : list call) (fd : HubSpotContactData) :
  let init := contactInit (HUBSPOT_ACCESS_TOKEN h) fd in
  let reply := fetch_reply h log contactsUrl init in
  exists r,
    createContact fd h log = (Returns r, logged log (Fetch contactsUrl init))
    /\ sr_step r = "Create Contact"
    /\ (sr_success r = true ->
        exists response data,
          reply = Returns response
          /\ ok response = true /\ json response = Returns data)
    /\ surfaced reply "Create Contact" "Failed to create contact" r
    /\ (forall response, reply = Returns response ->
        surfaced (json response) "Create Contact" "Failed to create contact" r).
Proof.
  unfold createContact, surfaced. run_step. split_outcome;
    eexists; (split; [reflexivity | split; [reflexivity | split;
      [cbn; intros S | split; intros; congruence]]]);
    try discriminate S.
  all: do 2 eexists; repeat split; try eassumption;
    apply negb_false_iff; assumption.
Qed.

Lemma createDeal_returns (h : host) (log : list call) (first last : string) :
  let init := dealInit (HUBSPOT_ACCESS_TOKEN h)
                ("Diagnostic - " ++ first ++ " " ++ last) in
  let reply := fetch_reply h log dealsUrl init in
  exists r,
    createDeal first last h log = (Returns r, logged log (Fetch dealsUrl init))
    /\ sr_step r = "Create Deal"
    /\ (sr_success r = true ->
        exists response data,
          reply = Returns response
          /\ ok response = true /\ json response = Returns data)
    /\ surfaced reply "Create Deal" "Failed to create deal" r
    /\ (forall response, reply = Returns response ->
        surfaced (json response) "Create Deal" "Failed to create deal" r).
Proof.
  unfold createDeal, surfaced. run_step. split_outcome;
    eexists; (split; [reflexivity | split; [reflexivity | split;
      [cbn; intros S | split; intros; congruence]]]);
    try discriminate S.
  all: do 2 eexists; repeat split; try eassumption;
    apply negb_false_iff; assumption.
Qed.

Lemma associateDealToContact_returns (h : host) (log : list call)
    (dealId contactId : jsval) :
  let url := associationUrl dealId contactId in
  let init := associationInit (HUBSPOT_ACCESS_TOKEN h) in
  let reply := fetch_reply h log url init in
  exists r,
    associateDealToContact dealId contactId h log
    = (Returns r, logged log (Fetch url init))
    /\ sr_step r = "Associate Deal to Contact"
    /\ (sr_success r = true ->
        exists response, reply = Returns response /\ ok response = true)
    /\ surfaced reply "Associate Deal to Contact"
         "Failed to associate deal to contact" r.
Proof.
  unfold associateDealToContact, surfaced. run_step. split_outcome;
    eexists; (split; [reflexivity | split; [reflexivity | split;
      [cbn; intros S | intros; congruence]]]);
    try discriminate S.
  all: eexists; split; [reflexivity | apply negb_false_iff; assumption].
Qed.

(** What step 4 does, by the key, the constructor of the client and the
    answer of the provider.  It sends nothing when the key is not
    configured or the constructor throws, and one email otherwise. *)
Lemma sendConfirmationEmail_run (h : host) (log : list call)
    (toEmail : string) (contactData : HubSpotContactData) (dealData : SummaryDeal) :
  let key := Resend (RESEND_API_KEY h) in
  let options := confirmationEmail toEmail contactData dealData (clock h log) in
  sendConfirmationEmail toEmail contactData dealData h log
  = if env_falsy (RESEND_API_KEY h) then (Returns emailNotConfigured, log)
    else
      match new_Resend h key with
      | Throws e => (Throws e, log)
      | Returns _ =>
          (Returns
             match send_reply h log key options with
             | Throws e => caught "Send Confirmation Email" e "Failed to send email"
             | Returns sent =>
                 if truthy (send_error sent) then emailRejected (send_error sent)
                 else emailDelivered toEmail (send_data sent)
             end,
           logged log (EmailsSend key options))
      end.
Proof.
  unfold sendConfirmationEmail, construct_Resend. run_step.
  destruct (env_falsy (RESEND_API_KEY h)); [reflexivity |].
  cbn beta iota. destruct (new_Resend h _) as [client | e]; [| reflexivity].
  cbn beta iota. destruct (send_reply h log _ _) as [sent | e]; [| reflexivity].
  cbn beta iota. destruct (truthy (send_error sent)) eqn:E; [| reflexivity].
  destruct (send_error sent); cbn in E; try discriminate E; reflexivity.
Qed.

(** When step 4 returns, its result carries the name of the step.  It is
    a success only when the provider answered without an error, and an
    error thrown by the client's [send] is surfaced in the result. *)
Lemma sendConfirmationEmail_returns (h : host) (log : list call)
    (toEmail : string) (contactData : HubSpotContactData) (dealData : SummaryDeal)
    (r : StepResult) (log' : list call) :
  let key := Resend (RESEND_API_KEY h) in
  let options := confirmationEmail toEmail contactData dealData (clock h log) in
  let reply := send_reply h log key options in
  sendConfirmationEmail toEmail contactData dealData h log = (Returns r, log') ->
  log' = (if env_falsy (RESEND_API_KEY h) then log
          else logged log (EmailsSend key options))
  /\ sr_step r = "Send Confirmation Email"
  /\ (sr_success r = true ->
      env_falsy (RESEND_API_KEY h) = false
      /\ exists sent, reply = Returns sent /\ truthy (send_error sent) = false)
  /\ (env_falsy (RESEND_API_KEY h) = false ->
      surfaced reply "Send Confirmation Email" "Failed to send email" r).
Proof.
  intros key options reply. rewrite sendConfirmationEmail_run. cbv zeta.
  fold key. fold options. fold reply. unfold surfaced.
  destruct (env_falsy (RESEND_API_KEY h)).
  { intros Q. injection Q as <- <-. repeat split; discriminate. }
  destruct (new_Resend h key) as [client | e]; [| discriminate].
  intros Q. injection Q as <- <-.
  destruct reply as [sent | e].
  - destruct (truthy (send_error sent)) eqn:Tr;
      (split; [reflexivity | split; [reflexivity | split]]);
      try discriminate.
    split; [reflexivity | eauto].
  - split; [reflexivity | split; [reflexivity | split; [discriminate |]]].
    intros _ e' Q. now injection Q as <-.
Qed.

(** A throw of step 4 is a throw of the constructor, with the key
    configured; it leaves the log as it was. *)
Lemma sendConfirmationEmail_throws (h : host) (log : list call)
    (toEmail : string) (contactData : HubSpotContactData) (dealData : SummaryDeal)
    (e : thrown) (log' : list call) :
  sendConfirmationEmail toEmail contactData dealData h log = (Throws e, log') ->
  env_falsy (RESEND_API_KEY h) = false
  /\ new_Resend h (Resend (RESEND_API_KEY h)) = Throws e
  /\ log' = log.
Proof.
  rewrite sendConfirmationEmail_run. cbv zeta.
  destruct (env_falsy (RESEND_API_KEY h)); [discriminate |].
  destruct (new_Resend h _) as [client | e0]; [discriminate |].
  intros Q. injection Q as <- <-. repeat split.
Qed.

Section Paths.

Variable h : host.
Variable log : list call.
Variable fd : HubSpotContactData.
Variable notificationEmail : string.

Ltac run_flow :=
  unfold runDiagnosticFlow, bind at 1, getAccessToken, env; cbn beta iota.

Ltac next_step H :=
  unfold bind at 1; rewrite H; cbn beta iota.

Lemma flow_no_token :
  env_falsy (HUBSPOT_ACCESS_TOKEN h) = true ->
  runDiagnosticFlow fd notificationEmail h log
  = (Returns {| success := false;
                message := "HubSpot access token is not configured";
                steps := [];
                summary := None |}, log).
Proof. intros T. run_flow. rewrite T. reflexivity. Qed.

Section Token.

Hypothesis token : env_falsy (HUBSPOT_ACCESS_TOKEN h) = false.

Variables (contactResult : StepResult) (log1 : list call).
Hypothesis step1 : createContact fd h log = (Returns contactResult, log1).

Lemma flow_contact_failed :
  sr_success contactResult = false ->
  runDiagnosticFlow fd notificationEmail h log
  = (Returns (aborted "Create Contact" [contactResult]), log1).
Proof.
  intros S1. run_flow. rewrite token. next_step step1. rewrite S1. reflexivity.
Qed.

Variables (dealResult : StepResult) (log2 : list call).
Hypothesis step2 :
  createDeal (firstName fd) (lastName fd) h log1 = (Returns dealResult, log2).

Lemma flow_deal_failed :
  sr_success contactResult = true ->
  sr_success dealResult = false ->
  runDiagnosticFlow fd notificationEmail h log
  = (Returns (aborted "Create Deal" [contactResult; dealResult]), log2).
Proof.
  intros S1 S2. run_flow. rewrite token. next_step step1. rewrite S1.
  cbn. next_step step2. rewrite S2. reflexivity.
Qed.

Variables (associationResult : StepResult) (log3 : list call).
Hypothesis step3 :
  associateDealToContact (data_prop dealResult "id") (data_prop contactResult "id")
    h log2 = (Returns associationResult, log3).

Lemma flow_association_failed :
  sr_success contactResult = true ->
  sr_success dealResult = true ->
  sr_success associationResult = false ->
  runDiagnosticFlow fd notificationEmail h log
  = (Returns (aborted "Associate Deal to Contact"
                [contactResult; dealResult; associationResult]), log3).
Proof.
  intros S1 S2 S3. run_flow. rewrite token. next_step step1. rewrite S1.
  cbn. next_step step2. rewrite S2. cbn. next_step step3. rewrite S3.
  reflexivity.
Qed.

Lemma flow_email_threw (e : thrown) (log4 : list call) :
  sendConfirmationEmail notificationEmail (flowContactData fd)
    (flowDealData dealResult) h log3 = (Throws e, log4) ->
  sr_success contactResult = true ->
  sr_success dealResult = true ->
  sr_success associationResult = true ->
  runDiagnosticFlow fd notificationEmail h log = (Throws e, log4).
Proof.
  intros step4 S1 S2 S3. run_flow. rewrite token. next_step step1. rewrite S1.
  cbn. next_step step2. rewrite S2. cbn. next_step step3. rewrite S3.
  cbn. unfold bind, flowContactData, flowDealData in *. rewrite step4.
  reflexivity.
Qed.

Variables (emailResult : StepResult) (log4 : list call).
Hypothesis step4 :
  sendConfirmationEmail notificationEmail (flowContactData fd)
    (flowDealData dealResult) h log3 = (Returns emailResult, log4).

Lemma flow_email_attempted :
  sr_success contactResult = true ->
  sr_success dealResult = true ->
  sr_success associationResult = true ->
  runDiagnosticFlow fd notificationEmail h log
  = (Returns (completed fd contactResult dealResult associationResult emailResult),
     log4).
Proof.
  intros S1 S2 S3. run_flow. rewrite token. next_step step1. rewrite S1.
  cbn. next_step step2. rewrite S2. cbn. next_step step3. rewrite S3.
  cbn. unfold bind, flowContactData, flowDealData in *. rewrite step4.
  cbn. rewrite ?S1, ?S2, ?S3. cbn. rewrite ?andb_true_r. reflexivity.
Qed.

End Token.
End Paths.

(** A run along a path is what the orchestrator computes. *)
Lemma FlowRun_sound h log fd ne res log' :
  FlowRun h log fd ne res log' ->
  runDiagnosticFlow fd ne h log = (Returns res, log').
Proof.
  intros R. destruct R.
  - now apply flow_no_token.
  - eapply flow_contact_failed; eassumption.
  - eapply flow_deal_failed; eassumption.
  - eapply flow_association_failed; eassumption.
  - eapply flow_email_attempted; eassumption.
Qed.

(** The orchestrator takes one of the five paths, or it throws what the
    constructor of the email client threw, after the three CRM steps
    succeeded; it leaves the log as step 3 left it. *)
Lemma FlowRun_or_throw h log fd ne :
  (exists res log', FlowRun h log fd ne res log')
  \/ (exists e r1 log1 r2 log2 r3 log3,
        env_falsy (HUBSPOT_ACCESS_TOKEN h) = false
        /\ createContact fd h log = (Returns r1, log1)
        /\ sr_success r1 = true
        /\ createDeal (firstName fd) (lastName fd) h log1 = (Returns r2, log2)
        /\ sr_success r2 = true
        /\ associateDealToContact (data_prop r2 "id") (data_prop r1 "id") h log2
           = (Returns r3, log3)
        /\ sr_success r3 = true
        /\ env_falsy (RESEND_API_KEY h) = false
        /\ new_Resend h (Resend (RESEND_API_KEY h)) = Throws e
        /\ runDiagnosticFlow fd ne h log = (Throws e, log3)).
Proof.
  destruct (env_falsy (HUBSPOT_ACCESS_TOKEN h)) eqn:T.
  { left. do 2 eexists. now apply RunNoToken. }
  destruct (createContact_returns h log fd) as (r1 & E1 & _).
  destruct (sr_success r1) eqn:S1.
  2: { left. do 2 eexists. eapply RunContactFailed; eassumption. }
  destruct (createDeal_returns h
              (logged log (Fetch contactsUrl (contactInit (HUBSPOT_ACCESS_TOKEN h) fd)))
              (firstName fd) (lastName fd)) as (r2 & E2 & _).
  destruct (sr_success r2) eqn:S2.
  2: { left. do 2 eexists. eapply RunDealFailed; eassumption. }
  match type of E2 with _ = (_, ?l2) =>
    destruct (associateDealToContact_returns h l2
                (data_prop r2 "id") (data_prop r1 "id")) as (r3 & E3 & _)
  end.
  destruct (sr_success r3) eqn:S3.
  2: { left. do 2 eexists. eapply RunAssociationFailed; eassumption. }
  match type of E3 with _ = (_, ?l3) =>
    destruct (sendConfirmationEmail ne
                (flowContactData fd) (flowDealData r2) h l3)
      as [[r4 | e] l4] eqn:E4
  end.
  - left. do 2 eexists. eapply RunEmailAttempted; eassumption.
  - right. pose proof E4 as Q. apply sendConfirmationEmail_throws in Q.
    destruct Q as (K & C & ->).
    exists e, r1. eexists. exists r2. eexists. exists r3. eexists.
    repeat (split; [first [reflexivity | eassumption] |]).
    eapply flow_email_threw; eassumption.
Qed.

Lemma runDiagnosticFlow_run h log fd ne res log' :
  runDiagnosticFlow fd ne h log = (Returns res, log') ->
  FlowRun h log fd ne res log'.
Proof.
  intros E.
  destruct (FlowRun_or_throw h log fd ne)
    as [(res0 & log0 & R) | (e & r1 & l1 & r2 & l2 & r3 & l3 & Thrown)].
  - pose proof (FlowRun_sound R) as E0. rewrite E in E0.
    injection E0 as -> ->. exact R.
  - destruct Thrown as (_ & _ & _ & _ & _ & _ & _ & _ & _ & E0).
    rewrite E in E0. discriminate E0.
Qed.

(** *** The claims about the flow *)

(** C1. When the CRM token is configured and the four steps, run in turn
    on what the previous ones returned, all return [success = true], the
    orchestrator returns a result with [success = true] whose summary has
    [association = "success"] and [emailSent = true]; its steps are the
    four step results in order. *)
Theorem C1_all_steps_succeed h log fd ne r1 log1 r2 log2 r3 log3 r4 log4 :
  env_falsy (HUBSPOT_ACCESS_TOKEN h) = false ->
  createContact fd h log = (Returns r1, log1) ->
  createDeal (firstName fd) (lastName fd) h log1 = (Returns r2, log2) ->
  associateDealToContact (data_prop r2 "id") (data_prop r1 "id") h log2
  = (Returns r3, log3) ->
  sendConfirmationEmail ne (flowContactData fd) (flowDealData r2) h log3
  = (Returns r4, log4) ->
  sr_success r1 = true -> sr_success r2 = true ->
  sr_success r3 = true -> sr_success r4 = true ->
  exists res sm,
    runDiagnosticFlow fd ne h log = (Returns res, log4)
    /\ steps res = [r1; r2; r3; r4]
    /\ success res = true
    /\ summary res = Some sm
    /\ association sm = "success"
    /\ emailSent sm = true.
Proof.
  intros T E1 E2 E3 E4 S1 S2 S3 S4.
  exists (completed fd r1 r2 r3 r4). eexists. split.
  - eapply flow_email_attempted; eassumption.
  - cbn. rewrite S4. repeat split.
Qed.

(** C2. When the first three steps succeed and the email step returns
    [success = false], the orchestrator returns [success = false] with the
    message "Flow completed with some errors" (which reads
    "completed with some errors" from its sixth character on), and the
    summary is present with [emailSent = false]. *)
Theorem C2_email_step_fails h log fd ne r1 log1 r2 log2 r3 log3 r4 log4 :
  env_falsy (HUBSPOT_ACCESS_TOKEN h) = false ->
  createContact fd h log = (Returns r1, log1) ->
  createDeal (firstName fd) (lastName fd) h log1 = (Returns r2, log2) ->
  associateDealToContact (data_prop r2 "id") (data_prop r1 "id") h log2
  = (Returns r3, log3) ->
  sendConfirmationEmail ne (flowContactData fd) (flowDealData r2) h log3
  = (Returns r4, log4) ->
  sr_success r1 = true -> sr_success r2 = true ->
  sr_success r3 = true -> sr_success r4 = false ->
  exists res sm,
    runDiagnosticFlow fd ne h log = (Returns res, log4)
    /\ steps res = [r1; r2; r3; r4]
    /\ success res = false
    /\ message res = "Flow completed with some errors"
    /\ index 0 "completed with some errors" (message res) = Some 5
    /\ summary res = Some sm
    /\ emailSent sm = false.
Proof.
  intros T E1 E2 E3 E4 S1 S2 S3 S4.
  exists (completed fd r1 r2 r3 r4). eexists. split.
  - eapply flow_email_attempted; eassumption.
  - cbn. rewrite S4. repeat split.
Qed.

(** C3. When the token is configured and one of the first three steps
    returns [success = false], the orchestrator returns at once: the result
    has [success = false], the message "Flow failed at: " followed by the
    name of the failing step, the step results up to and including the
    failing one, and no summary; the calls made are those of the steps up
    to the failing one and nothing else, so no later step and no email is
    attempted. *)
Theorem C3_early_abort h log fd ne :
  env_falsy (HUBSPOT_ACCESS_TOKEN h) = false ->
  let token := HUBSPOT_ACCESS_TOKEN h in
  let call1 := Fetch contactsUrl (contactInit token fd) in
  let call2 := Fetch dealsUrl
                 (dealInit token ("Diagnostic - " ++ firstName fd ++ " " ++ lastName fd)) in
  (forall r1 log1,
     createContact fd h log = (Returns r1, log1) ->
     sr_success r1 = false ->
     runDiagnosticFlow fd ne h log
     = (Returns {| success := false;
                   message := "Flow failed at: " ++ sr_step r1;
                   steps := [r1];
                   summary := None |}, log1)
     /\ sr_step r1 = "Create Contact"
     /\ log1 = (log ++ [call1])%list)
  /\ (forall r1 log1 r2 log2,
     createContact fd h log = (Returns r1, log1) ->
     createDeal (firstName fd) (lastName fd) h log1 = (Returns r2, log2) ->
     sr_success r1 = true -> sr_success r2 = false ->
     runDiagnosticFlow fd ne h log
     = (Returns {| success := false;
                   message := "Flow failed at: " ++ sr_step r2;
                   steps := [r1; r2];
                   summary := None |}, log2)
     /\ sr_step r2 = "Create Deal"
     /\ log2 = (log ++ [call1; call2])%list)
  /\ (forall r1 log1 r2 log2 r3 log3,
     createContact fd h log = (Returns r1, log1) ->
     createDeal (firstName fd) (lastName fd) h log1 = (Returns r2, log2) ->
     associateDealToContact (data_prop r2 "id") (data_prop r1 "id") h log2
     = (Returns r3, log3) ->
     sr_success r1 = true -> sr_success r2 = true -> sr_success r3 = false ->
     runDiagnosticFlow fd ne h log
     = (Returns {| success := false;
                   message := "Flow failed at: " ++ sr_step r3;
                   steps := [r1; r2; r3];
                   summary := None |}, log3)
     /\ sr_step r3 = "Associate Deal to Contact"
     /\ log3 = (log ++ [call1; call2;
                        Fetch (associationUrl (data_prop r2 "id") (data_prop r1 "id"))
                          (associationInit token)])%list).
Proof.
  intros T token call1 call2.
  assert (L1 : forall r1 log1,
             createContact fd h log = (Returns r1, log1) ->
             sr_step r1 = "Create Contact" /\ log1 = (log ++ [call1])%list).
  { intros r1 log1 E1.
    destruct (createContact_returns h log fd) as (r1' & E1' & N1 & _).
    rewrite E1 in E1'. injection E1' as <- ->. now split. }
  assert (L2 : forall log1 r2 log2,
             createDeal (firstName fd) (lastName fd) h log1 = (Returns r2, log2) ->
             sr_step r2 = "Create Deal"
             /\ log2 = (log1 ++ [Fetch dealsUrl
                          (dealInit token
                             ("Diagnostic - " ++ firstName fd ++ " " ++ lastName fd))])%list).
  { intros log1 r2 log2 E2.
    destruct (createDeal_returns h log1 (firstName fd) (lastName fd))
      as (r2' & E2' & N2 & _).
    rewrite E2 in E2'. injection E2' as <- ->. now split. }
  split; [| split].
  - intros r1 log1 E1 S1. destruct (L1 _ _ E1) as [N1 A1].
    rewrite N1. repeat split; [| exact A1].
    now apply flow_contact_failed.
  - intros r1 log1 r2 log2 E1 E2 S1 S2.
    destruct (L1 _ _ E1) as [_ A1]. destruct (L2 _ _ _ E2) as [N2 A2].
    rewrite N2. repeat split.
    + eapply flow_deal_failed; eassumption.
    + rewrite A2, A1. now rewrite <- app_assoc.
  - intros r1 log1 r2 log2 r3 log3 E1 E2 E3 S1 S2 S3.
    destruct (L1 _ _ E1) as [_ A1]. destruct (L2 _ _ _ E2) as [_ A2].
    destruct (associateDealToContact_returns h log2
                (data_prop r2 "id") (data_prop r1 "id")) as (r3' & E3' & N3 & _).
    rewrite E3 in E3'. injection E3' as <- A3.
    rewrite N3. repeat split.
    + eapply flow_association_failed; eassumption.
    + rewrite A3, A2, A1. unfold logged. now rewrite <- !app_assoc.
Qed.

(** C4. When the CRM token is absent from the configuration (or empty),
    the orchestrator returns [success = false] with an empty step list and
    no summary, and makes no call: the log of outgoing calls is the one it
    started with. *)
Theorem C4_missing_token h log fd ne :
  env_falsy (HUBSPOT_ACCESS_TOKEN h) = true ->
  exists res,
    runDiagnosticFlow fd ne h log = (Returns res, log)
    /\ success res = false
    /\ steps res = []
    /\ summary res = None
    /\ message res = "HubSpot access token is not configured".
Proof.
  intros T. eexists. split.
  - now apply flow_no_token.
  - repeat split.
Qed.

(** C5. When the token is configured and the Create Contact and Create
    Deal steps succeed, the association step is run on the [id] of the
    deal step's data and the [id] of the contact step's data: the call the
    flow makes next is the association request addressed to these two ids,
    the third step result of the flow, when it returns one, is the result
    of [associateDealToContact] on them, and a successful association
    echoes them.  The flow returns a result unless the association
    succeeded, the email key is configured and the constructor of the email
    client throws. *)
Theorem C5_association_ids h log fd ne r1 log1 r2 log2 :
  env_falsy (HUBSPOT_ACCESS_TOKEN h) = false ->
  createContact fd h log = (Returns r1, log1) ->
  createDeal (firstName fd) (lastName fd) h log1 = (Returns r2, log2) ->
  sr_success r1 = true -> sr_success r2 = true ->
  let dealId := data_prop r2 "id" in
  let contactId := data_prop r1 "id" in
  exists r3 log3 o log' later,
    associateDealToContact dealId contactId h log2 = (Returns r3, log3)
    /\ runDiagnosticFlow fd ne h log = (o, log')
    /\ (forall res, o = Returns res -> nth_error (steps res) 2 = Some r3)
    /\ (forall e, o = Throws e ->
        sr_success r3 = true
        /\ env_falsy (RESEND_API_KEY h) = false
        /\ new_Resend h (Resend (RESEND_API_KEY h)) = Throws e)
    /\ log' = (log2 ++ Fetch (associationUrl dealId contactId)
                         (associationInit (HUBSPOT_ACCESS_TOKEN h)) :: later)%list
    /\ (sr_success r3 = true ->
        sr_data r3 = Some (JObj [("dealId", dealId); ("contactId", contactId)])).
Proof.
  intros T E1 E2 S1 S2 dealId contactId.
  destruct (associateDealToContact_returns h log2 dealId contactId)
    as (r3 & E3 & _ & _).
  assert (D : sr_success r3 = true ->
              sr_data r3 = Some (JObj [("dealId", dealId); ("contactId", contactId)])).
  { revert E3. unfold associateDealToContact. run_step. split_outcome;
      intros Q; injection Q as <-; cbn; intros S; try discriminate S; reflexivity. }
  destruct (sr_success r3) eqn:S3.
  - match type of E3 with _ = (_, ?l3) =>
      destruct (sendConfirmationEmail ne (flowContactData fd) (flowDealData r2) h l3)
        as [[r4 | e] l4] eqn:E4
    end.
    + assert (R := E4). eapply flow_email_attempted in R; try eassumption.
      apply sendConfirmationEmail_returns in E4. destruct E4 as (L4 & _).
      subst l4. destruct (env_falsy (RESEND_API_KEY h)).
      * exists r3. do 3 eexists. exists [].
        split; [exact E3 | split; [exact R |]].
        split; [intros res Q; injection Q as <-; reflexivity |].
        split; [discriminate |].
        split; [reflexivity | intros S; apply D; congruence].
      * exists r3. do 4 eexists.
        split; [exact E3 | split; [exact R |]].
        split; [intros res Q; injection Q as <-; reflexivity |].
        split; [discriminate |].
        split; [| intros S; apply D; congruence].
        unfold logged. rewrite <- app_assoc. reflexivity.
    + assert (R := E4). eapply flow_email_threw in R; try eassumption.
      apply sendConfirmationEmail_throws in E4. destruct E4 as (K & C & ->).
      exists r3. do 3 eexists. exists [].
      split; [exact E3 | split; [exact R |]].
      split; [discriminate |].
      split; [intros e' Q; injection Q as <-; now repeat split |].
      split; [reflexivity | intros S; apply D; congruence].
  - exists r3. do 3 eexists. exists [].
    split; [exact E3 | split].
    + eapply flow_association_failed; eassumption.
    + split; [intros res Q; injection Q as <-; reflexivity |].
      split; [discriminate |].
      split; [reflexivity | intros S; apply D; congruence].
Qed.

(** C6. The flow can throw.  Step 4 builds the email client with
    [new Resend(apiKey)] before its [try]: when the three CRM steps have
    succeeded, the email key is configured and the constructor throws, the
    error is caught neither by the step nor by the flow, and
    [runDiagnosticFlow] throws it instead of returning a result, the three
    CRM requests having been made. *)
Theorem C6_constructor_throw_escapes h log fd ne r1 log1 r2 log2 r3 log3 e :
  env_falsy (HUBSPOT_ACCESS_TOKEN h) = false ->
  createContact fd h log = (Returns r1, log1) ->
  createDeal (firstName fd) (lastName fd) h log1 = (Returns r2, log2) ->
  associateDealToContact (data_prop r2 "id") (data_prop r1 "id") h log2
  = (Returns r3, log3) ->
  sr_success r1 = true -> sr_success r2 = true -> sr_success r3 = true ->
  env_falsy (RESEND_API_KEY h) = false ->
  new_Resend h (Resend (RESEND_API_KEY h)) = Throws e ->
  sendConfirmationEmail ne (flowContactData fd) (flowDealData r2) h log3
  = (Throws e, log3)
  /\ runDiagnosticFlow fd ne h log = (Throws e, log3)
  /\ length log3 = length log + 3.
Proof.
  intros T E1 E2 E3 S1 S2 S3 K C.
  assert (E4 : sendConfirmationEmail ne (flowContactData fd) (flowDealData r2) h log3
               = (Throws e, log3)).
  { rewrite sendConfirmationEmail_run. cbv zeta. rewrite K, C. reflexivity. }
  split; [exact E4 | split].
  - eapply flow_email_threw; eassumption.
  - destruct (createContact_returns h log fd) as (r & E & _).
    rewrite E1 in E. injection E as _ ->.
    match type of E2 with _ _ _ ?l = _ =>
      destruct (createDeal_returns h l (firstName fd) (lastName fd)) as (r' & E' & _)
    end.
    rewrite E2 in E'. injection E' as _ ->.
    match type of E3 with _ _ _ ?l = _ =>
      destruct (associateDealToContact_returns h l
                  (data_prop r2 "id") (data_prop r1 "id")) as (r'' & E'' & _)
    end.
    rewrite E3 in E''. injection E'' as _ ->.
    unfold logged. rewrite !length_app. cbn. lia.
Qed.

(** C8, as amended. When the association request is answered with a
    status that is not 2xx, the step returns [success = false]; its data is
    the empty object when the body does not parse as JSON, and the parsed
    value when the body parses to a value other than [null]. *)
Theorem C8_association_not_ok h log dealId contactId response :
  fetch_reply h log (associationUrl dealId contactId)
    (associationInit (HUBSPOT_ACCESS_TOKEN h)) = Returns response ->
  ok response = false ->
  exists r log',
    associateDealToContact dealId contactId h log = (Returns r, log')
    /\ sr_success r = false
    /\ (forall e, json response = Throws e -> sr_data r = Some (JObj []))
    /\ (forall v, json response = Returns v -> v <> JNull -> v <> JUndefined ->
        sr_data r = Some v).
Proof.
  intros F K. unfold associateDealToContact. run_step. rewrite F, K. cbn.
  destruct (json response) as [v | e]; cbn.
  - destruct v; cbn; do 2 eexists;
      (split; [reflexivity | split; [reflexivity | split]]);
      try discriminate; intros v' V N U; injection V as <-;
      try reflexivity; congruence.
  - do 2 eexists. split; [reflexivity | split; [reflexivity | split]].
    + reflexivity.
    + discriminate.
Qed.

(** C9. When the email provider's key is absent from the configuration
    (or empty), the email step returns [success = false] and makes no call:
    the log of outgoing calls is the one it started with. *)
Theorem C9_missing_email_key h log toEmail contactData dealData :
  env_falsy (RESEND_API_KEY h) = true ->
  exists r,
    sendConfirmationEmail toEmail contactData dealData h log = (Returns r, log)
    /\ sr_success r = false
    /\ sr_step r = "Send Confirmation Email"
    /\ sr_message r = JStr "Resend API key is not configured".
Proof.
  intros K. unfold sendConfirmationEmail. run_step. rewrite K.
  eexists. repeat split.
Qed.

(** C10. A result of the orchestrator that has a summary has exactly
    four step results, the first three of them successes; the summary's
    [association] is "success", and the result's [success] is the success
    of the fourth, the email step. *)
Theorem C10_summary_invariant h log fd ne res log' sm :
  runDiagnosticFlow fd ne h log = (Returns res, log') ->
  summary res = Some sm ->
  exists r1 r2 r3 r4,
    steps res = [r1; r2; r3; r4]
    /\ sr_success r1 = true /\ sr_success r2 = true /\ sr_success r3 = true
    /\ sr_step r4 = "Send Confirmation Email"
    /\ association sm = "success"
    /\ emailSent sm = sr_success r4
    /\ success res = sr_success r4.
Proof.
  intros E Sm. apply runDiagnosticFlow_run in E.
  destruct E as [T | r1 l1 T E1 S1 | r1 l1 r2 l2 T E1 S1 E2 S2
                 | r1 l1 r2 l2 r3 l3 T E1 S1 E2 S2 E3 S3
                 | r1 l1 r2 l2 r3 l3 r4 l4 T E1 S1 E2 S2 E3 S3 E4];
    try discriminate Sm.
  injection Sm as <-.
  apply sendConfirmationEmail_returns in E4. destruct E4 as (_ & N4 & _).
  exists r1, r2, r3, r4. cbn. repeat split; assumption.
Qed.

(** *** More about the steps and the flow *)

(** What a step returned determines the log it left. *)
Ltac step_log E lemma :=
  let r := fresh "r" in let E' := fresh "E" in
  destruct lemma as (r & E' & _);
  rewrite E in E'; injection E' as _ ->; clear r.

(** The calls of a run are determined by its step results. *)
Lemma FlowRun_calls h log fd ne res log' :
  FlowRun h log fd ne res log' ->
  log' = (log ++ flowCalls h log fd ne (steps res))%list.
Proof.
  intros R.
  destruct R as [T | r1 l1 T E1 S1 | r1 l1 r2 l2 T E1 S1 E2 S2
                 | r1 l1 r2 l2 r3 l3 T E1 S1 E2 S2 E3 S3
                 | r1 l1 r2 l2 r3 l3 r4 l4 T E1 S1 E2 S2 E3 S3 E4].
  - cbn. now rewrite app_nil_r.
  - step_log E1 (createContact_returns h log fd). reflexivity.
  - step_log E1 (createContact_returns h log fd).
    match type of E2 with _ _ _ ?l = _ =>
      step_log E2 (createDeal_returns h l (firstName fd) (lastName fd))
    end.
    unfold logged. cbn. now rewrite <- app_assoc.
  - step_log E1 (createContact_returns h log fd).
    match type of E2 with _ _ _ ?l = _ =>
      step_log E2 (createDeal_returns h l (firstName fd) (lastName fd))
    end.
    match type of E3 with _ _ _ ?l = _ =>
      step_log E3 (associateDealToContact_returns h l
                     (data_prop r2 "id") (data_prop r1 "id"))
    end.
    unfold logged. cbn. now rewrite <- !app_assoc.
  - step_log E1 (createContact_returns h log fd).
    match type of E2 with _ _ _ ?l = _ =>
      step_log E2 (createDeal_returns h l (firstName fd) (lastName fd))
    end.
    match type of E3 with _ _ _ ?l = _ =>
      step_log E3 (associateDealToContact_returns h l
                     (data_prop r2 "id") (data_prop r1 "id"))
    end.
    apply sendConfirmationEmail_returns in E4. destruct E4 as (-> & _).
    unfold logged. cbn [steps completed flowCalls].
    destruct (env_falsy (RESEND_API_KEY h)).
    + now rewrite <- !app_assoc.
    + rewrite <- !app_assoc. cbn [app]. reflexivity.
Qed.

Lemma read_prop_returns (v : jsval) (key : string) (a : jsval) :
  read_prop v key = Returns a -> readable v /\ a = read_prop_opt v key.
Proof.
  unfold readable.
  destruct v; cbn; intros Q; try discriminate Q; injection Q as <-;
    repeat split; discriminate.
Qed.

Lemma read_prop_readable (v : jsval) (key : string) :
  readable v -> read_prop v key = Returns (read_prop_opt v key).
Proof.
  intros [N U]. destruct v; cbn; try reflexivity; congruence.
Qed.

Lemma read_prop_throws (v : jsval) (key : string) (e : thrown) :
  read_prop v key = Throws e -> ~ readable v.
Proof.
  intros Q [N U]. destruct v; cbn in Q; try discriminate Q; congruence.
Qed.

(** What step 1 returns, by the answer of the CRM. *)
Lemma createContact_cases (h : host) (log : list call) (fd : HubSpotContactData) :
  let init := contactInit (HUBSPOT_ACCESS_TOKEN h) fd in
  let fallback := "Failed to create contact" in
  fst (createContact fd h log)
  = Returns
      match fetch_reply h log contactsUrl init with
      | Throws e => caught "Create Contact" e fallback
      | Returns response =>
          match json response with
          | Throws e => caught "Create Contact" e fallback
          | Returns data =>
              if ok response then
                match read_prop data "id" with
                | Throws e => caught "Create Contact" e fallback
                | Returns id =>
                    match print id with
                    | Throws e => caught "Create Contact" e fallback
                    | Returns _ => contactCreated data
                    end
                end
              else
                match read_prop data "message" with
                | Throws e => caught "Create Contact" e fallback
                | Returns _ => crmRefused "Create Contact" response data
                end
          end
      end.
Proof.
  unfold createContact. run_step.
  destruct (fetch_reply h log contactsUrl _) as [response | e]; [| reflexivity].
  cbn beta iota. destruct (json response) as [data | e]; [| reflexivity].
  cbn beta iota.
  destruct data, (ok response); cbn; try reflexivity;
    unfold print; destruct (convertible _); reflexivity.
Qed.

Lemma createDeal_cases (h : host) (log : list call) (first last : string) :
  let dealName := "Diagnostic - " ++ first ++ " " ++ last in
  let init := dealInit (HUBSPOT_ACCESS_TOKEN h) dealName in
  let fallback := "Failed to create deal" in
  fst (createDeal first last h log)
  = Returns
      match fetch_reply h log dealsUrl init with
      | Throws e => caught "Create Deal" e fallback
      | Returns response =>
          match json response with
          | Throws e => caught "Create Deal" e fallback
          | Returns data =>
              if ok response then
                match read_prop data "id" with
                | Throws e => caught "Create Deal" e fallback
                | Returns id =>
                    match print id with
                    | Throws e => caught "Create Deal" e fallback
                    | Returns _ => dealCreated dealName data
                    end
                end
              else
                match read_prop data "message" with
                | Throws e => caught "Create Deal" e fallback
                | Returns _ => crmRefused "Create Deal" response data
                end
          end
      end.
Proof.
  unfold createDeal. run_step.
  destruct (fetch_reply h log dealsUrl _) as [response | e]; [| reflexivity].
  cbn beta iota. destruct (json response) as [data | e]; [| reflexivity].
  cbn beta iota.
  destruct data, (ok response); cbn; try reflexivity;
    unfold print; destruct (convertible _); reflexivity.
Qed.

Lemma associateDealToContact_cases (h : host) (log : list call)
    (dealId contactId : jsval) :
  let init := associationInit (HUBSPOT_ACCESS_TOKEN h) in
  let step := "Associate Deal to Contact" in
  let fallback := "Failed to associate deal to contact" in
  fst (associateDealToContact dealId contactId h log)
  = Returns
      match fetch_reply h log (associationUrl dealId contactId) init with
      | Throws e => caught step e fallback
      | Returns response =>
          if ok response then associated dealId contactId
          else
            match read_prop (tolerantBody response) "message" with
            | Throws e => caught step e fallback
            | Returns _ => crmRefused step response (tolerantBody response)
            end
      end.
Proof.
  unfold associateDealToContact, tolerantBody. run_step.
  destruct (fetch_reply h log _ _) as [response | e]; [| reflexivity].
  cbn beta iota. destruct (ok response); cbn; [reflexivity |].
  destruct (json response) as [[] | e]; reflexivity.
Qed.

Lemma print_returns (v : jsval) (text : string) :
  print v = Returns text -> convertible v = true /\ text = toStr v.
Proof.
  unfold print. destruct (convertible v); [| discriminate].
  intros Q. injection Q as <-. now split.
Qed.

Lemma print_throws (v : jsval) (e : thrown) :
  print v = Throws e -> convertible v = false.
Proof.
  unfold print. destruct (convertible v); [discriminate | reflexivity].
Qed.

(** Step 1 succeeds exactly on a 2xx answer with a readable body whose
    [id] can be printed. *)
Lemma createContact_success (h : host) (log : list call) (fd : HubSpotContactData)
    (r : StepResult) (log' : list call) :
  createContact fd h log = (Returns r, log') ->
  (sr_success r = true <->
   exists response data,
     fetch_reply h log contactsUrl (contactInit (HUBSPOT_ACCESS_TOKEN h) fd)
     = Returns response
     /\ ok response = true /\ json response = Returns data /\ readable data
     /\ convertible (read_prop_opt data "id") = true
     /\ r = contactCreated data).
Proof.
  intros E. pose proof (createContact_cases h log fd) as C.
  rewrite E in C. cbn [fst] in C. cbv zeta in C. injection C as ->.
  destruct (fetch_reply h log contactsUrl _) as [response | e].
  2: { split; [discriminate | intros (? & ? & Q & _); discriminate Q]. }
  destruct (json response) as [data | e] eqn:J.
  2: { split; [discriminate |].
       intros (? & ? & Q & _ & Q' & _). injection Q as <-. congruence. }
  destruct (ok response) eqn:K.
  - destruct (read_prop data "id") as [a | e] eqn:P.
    + apply read_prop_returns in P. destruct P as [Rd ->].
      destruct (print (read_prop_opt data "id")) as [text | e] eqn:Pr.
      * apply print_returns in Pr. destruct Pr as [Cv _].
        split; [intros _; exists response, data; tauto | reflexivity].
      * apply print_throws in Pr.
        split; [discriminate |].
        intros (? & ? & Q & _ & Q' & _ & Cv & _). injection Q as <-.
        rewrite J in Q'. injection Q' as <-. congruence.
    + apply read_prop_throws in P.
      split; [discriminate |].
      intros (? & ? & Q & _ & Q' & Rd & _). injection Q as <-.
      rewrite J in Q'. injection Q' as <-. contradiction.
  - split.
    + destruct (read_prop data "message"); discriminate.
    + intros (? & ? & Q & K' & _). injection Q as <-. congruence.
Qed.

Lemma createDeal_success (h : host) (log : list call) (first last : string)
    (r : StepResult) (log' : list call) :
  let dealName := "Diagnostic - " ++ first ++ " " ++ last in
  createDeal first last h log = (Returns r, log') ->
  (sr_success r = true <->
   exists response data,
     fetch_reply h log dealsUrl (dealInit (HUBSPOT_ACCESS_TOKEN h) dealName)
     = Returns response
     /\ ok response = true /\ json response = Returns data /\ readable data
     /\ convertible (read_prop_opt data "id") = true
     /\ r = dealCreated dealName data).
Proof.
  intros dealName E. pose proof (createDeal_cases h log first last) as C.
  rewrite E in C. cbn [fst] in C. cbv zeta in C. injection C as ->.
  fold dealName.
  destruct (fetch_reply h log dealsUrl _) as [response | e].
  2: { split; [discriminate | intros (? & ? & Q & _); discriminate Q]. }
  destruct (json response) as [data | e] eqn:J.
  2: { split; [discriminate |].
       intros (? & ? & Q & _ & Q' & _). injection Q as <-. congruence. }
  destruct (ok response) eqn:K.
  - destruct (read_prop data "id") as [a | e] eqn:P.
    + apply read_prop_returns in P. destruct P as [Rd ->].
      destruct (print (read_prop_opt data "id")) as [text | e] eqn:Pr.
      * apply print_returns in Pr. destruct Pr as [Cv _].
        split; [intros _; exists response, data; tauto | reflexivity].
      * apply print_throws in Pr.
        split; [discriminate |].
        intros (? & ? & Q & _ & Q' & _ & Cv & _). injection Q as <-.
        rewrite J in Q'. injection Q' as <-. congruence.
    + apply read_prop_throws in P.
      split; [discriminate |].
      intros (? & ? & Q & _ & Q' & Rd & _). injection Q as <-.
      rewrite J in Q'. injection Q' as <-. contradiction.
  - split.
    + destruct (read_prop data "message"); discriminate.
    + intros (? & ? & Q & K' & _). injection Q as <-. congruence.
Qed.

(** Step 3 succeeds exactly on a 2xx answer; it does not read the body. *)
Lemma associateDealToContact_success (h : host) (log : list call)
    (dealId contactId : jsval) (r : StepResult) (log' : list call) :
  associateDealToContact dealId contactId h log = (Returns r, log') ->
  (sr_success r = true <->
   exists response,
     fetch_reply h log (associationUrl dealId contactId)
       (associationInit (HUBSPOT_ACCESS_TOKEN h)) = Returns response
     /\ ok response = true /\ r = associated dealId contactId).
Proof.
  intros E. pose proof (associateDealToContact_cases h log dealId contactId) as C.
  rewrite E in C. cbn [fst] in C. cbv zeta in C. injection C as ->.
  destruct (fetch_reply h log _ _) as [response | e].
  2: { split; [discriminate | intros (? & Q & _); discriminate Q]. }
  destruct (ok response) eqn:K.
  - split; [intros _; exists response; tauto | reflexivity].
  - split.
    + destruct (read_prop (tolerantBody response) "message"); discriminate.
    + intros (? & Q & K' & _). injection Q as <-. congruence.
Qed.

Lemma env_configured (v : option string) :
  env_falsy v = false -> exists s, v = Some s /\ s <> "".
Proof.
  destruct v as [s |]; cbn; [| discriminate].
  intros F. exists s. split; [reflexivity |].
  intros ->. discriminate F.
Qed.

(** The names of the step results of a run. *)
Lemma FlowRun_names h log fd ne res log' :
  FlowRun h log fd ne res log' ->
  map (@sr_step) (steps res) = firstn (length (steps res)) stepNames.
Proof.
  intros R.
  destruct R as [T | r1 l1 T E1 S1 | r1 l1 r2 l2 T E1 S1 E2 S2
                 | r1 l1 r2 l2 r3 l3 T E1 S1 E2 S2 E3 S3
                 | r1 l1 r2 l2 r3 l3 r4 l4 T E1 S1 E2 S2 E3 S3 E4];
    cbn [steps aborted completed map length firstn stepNames];
    repeat match goal with
      | E : createContact _ _ ?l = (Returns ?r, _) |- _ =>
          let N := fresh "N" in
          destruct (createContact_returns h l fd) as (? & E' & N & _);
          rewrite E in E'; injection E' as <- _; rewrite N; clear E
      | E : createDeal _ _ _ ?l = (Returns ?r, _) |- _ =>
          let N := fresh "N" in
          destruct (createDeal_returns h l (firstName fd) (lastName fd))
            as (? & E' & N & _);
          rewrite E in E'; injection E' as <- _; rewrite N; clear E
      | E : associateDealToContact ?d ?c _ ?l = (Returns ?r, _) |- _ =>
          let N := fresh "N" in
          destruct (associateDealToContact_returns h l d c) as (? & E' & N & _);
          rewrite E in E'; injection E' as <- _; rewrite N; clear E
      | E : sendConfirmationEmail ?t ?c ?d _ ?l = (Returns ?r, _) |- _ =>
          let N := fresh "N" in
          apply sendConfirmationEmail_returns in E; destruct E as (_ & N & _);
          rewrite N
      end;
    reflexivity.
Qed.

(** *** Further properties of the flow *)

(** X1. The flow reports success exactly when four steps ran and all four
    succeeded; a successful result always carries a summary. *)
Theorem X1_success_iff_four_successes h log fd ne res log' :
  runDiagnosticFlow fd ne h log = (Returns res, log') ->
  (success res = true <->
   length (steps res) = 4 /\ forallb (@sr_success) (steps res) = true)
  /\ (success res = true -> summary res <> None).
Proof.
  intros E. apply runDiagnosticFlow_run in E.
  destruct E as [T | r1 l1 T E1 S1 | r1 l1 r2 l2 T E1 S1 E2 S2
                 | r1 l1 r2 l2 r3 l3 T E1 S1 E2 S2 E3 S3
                 | r1 l1 r2 l2 r3 l3 r4 l4 T E1 S1 E2 S2 E3 S3 E4]; cbn.
  1-4: split; [split; [discriminate | intros [L _]; discriminate L] | discriminate].
  rewrite S1, S2, S3. cbn. rewrite andb_true_r.
  split; [tauto | discriminate].
Qed.

(** X2. The step results of a run are named after the steps in their
    fixed order, there are at most four of them, and only the last one can
    be a failure; the list is empty exactly when the token is not
    configured. *)
Theorem X2_steps_shape h log fd ne res log' :
  runDiagnosticFlow fd ne h log = (Returns res, log') ->
  map (@sr_step) (steps res) = firstn (length (steps res)) stepNames
  /\ length (steps res) <= 4
  /\ forallb (@sr_success) (removelast (steps res)) = true
  /\ (steps res = [] <-> env_falsy (HUBSPOT_ACCESS_TOKEN h) = true).
Proof.
  intros E. apply runDiagnosticFlow_run in E.
  split; [now apply FlowRun_names with (1 := E) |].
  destruct E as [T | r1 l1 T E1 S1 | r1 l1 r2 l2 T E1 S1 E2 S2
                 | r1 l1 r2 l2 r3 l3 T E1 S1 E2 S2 E3 S3
                 | r1 l1 r2 l2 r3 l3 r4 l4 T E1 S1 E2 S2 E3 S3 E4];
    cbn; rewrite ?S1, ?S2, ?S3; cbn;
    (split; [lia | split; [reflexivity |]]).
  1: tauto.
  all: rewrite T; split; discriminate.
Qed.

(** X3. The outgoing calls of a run are determined by its step results:
    one request for each CRM step that ran, in the order contact, deal,
    association, then the email when a fourth step ran with the key
    configured.  So no call is repeated, there is never more than one call
    per step result, and with the email key configured there is exactly
    one. *)
Theorem X3_calls_of_a_run h log fd ne res log' :
  runDiagnosticFlow fd ne h log = (Returns res, log') ->
  let calls := flowCalls h log fd ne (steps res) in
  log' = (log ++ calls)%list
  /\ length calls <= length (steps res)
  /\ (env_falsy (RESEND_API_KEY h) = false -> length calls = length (steps res)).
Proof.
  intros E calls. apply runDiagnosticFlow_run in E.
  split; [now apply FlowRun_calls |].
  subst calls.
  destruct E as [T | r1 l1 T E1 S1 | r1 l1 r2 l2 T E1 S1 E2 S2
                 | r1 l1 r2 l2 r3 l3 T E1 S1 E2 S2 E3 S3
                 | r1 l1 r2 l2 r3 l3 r4 l4 T E1 S1 E2 S2 E3 S3 E4];
    cbn [steps aborted completed flowCalls];
    try (split; [cbn; lia | reflexivity]).
  destruct (env_falsy (RESEND_API_KEY h)); cbn; split; try lia; discriminate.
Qed.


(** X5. An email leaves the flow only after the three CRM steps succeeded
    (the result then has a summary), as the fourth and last call, after the
    three requests.  It is sent with the configured key to
    the notification address, not to the contact, under the subject built
    from the submitted first name, and its body shows the submitted contact
    fields. *)
Theorem X5_email_of_the_flow h log fd ne res log' :
  runDiagnosticFlow fd ne h log = (Returns res, log') ->
  exists calls,
    log' = (log ++ calls)%list
    /\ forall apiKey options,
         In (EmailsSend apiKey options) calls ->
         RESEND_API_KEY h = Some apiKey
         /\ apiKey <> ""
         /\ to options = ne
         /\ from options = "QuantaLynk Diagnostic <noreply@updates.quantalynk.com>"
         /\ subject options = "QuantaLynk Diagnostic - Results for " ++ firstName fd
         /\ html_email (html options) = email fd
         /\ html_firstName (html options) = firstName fd
         /\ html_lastName (html options) = lastName fd
         /\ summary res <> None
         /\ exists requests,
              calls = (requests ++ [EmailsSend apiKey options])%list
              /\ length requests = 3.
Proof.
  intros E. apply runDiagnosticFlow_run in E.
  exists (flowCalls h log fd ne (steps res)).
  split; [now apply FlowRun_calls |].
  intros apiKey options I.
  destruct E as [T | r1 l1 T E1 S1 | r1 l1 r2 l2 T E1 S1 E2 S2
                 | r1 l1 r2 l2 r3 l3 T E1 S1 E2 S2 E3 S3
                 | r1 l1 r2 l2 r3 l3 r4 l4 T E1 S1 E2 S2 E3 S3 E4];
    cbn [steps aborted completed flowCalls In] in I |- *.
  - destruct I.
  - destruct I as [I | []]; discriminate I.
  - destruct I as [I | [I | []]]; discriminate I.
  - destruct I as [I | [I | [I | []]]]; discriminate I.
  - destruct (env_falsy (RESEND_API_KEY h)) eqn:K; cbn [In] in I.
    + destruct I as [I | [I | [I | []]]]; discriminate I.
    + destruct I as [I | [I | [I | [I | []]]]]; try discriminate I.
      injection I as <- <-.
      destruct (env_configured _ K) as (key & Ky & Ne).
      rewrite Ky. cbn. repeat split; try assumption; try discriminate.
      eexists [_; _; _]. split; reflexivity.
Qed.


(** X7. The summary of a run repeats the submitted email and names, not
    what the CRM echoed, and names the deal "Diagnostic - " followed by the
    submitted first and last name.  Its contact id and deal id are the
    [id] properties of the bodies the CRM answered the first two requests
    with, and its email id is the [id] of the fourth step's data. *)
Theorem X7_summary_content h log fd ne res log' sm :
  runDiagnosticFlow fd ne h log = (Returns res, log') ->
  summary res = Some sm ->
  let token := HUBSPOT_ACCESS_TOKEN h in
  let dealName := "Diagnostic - " ++ firstName fd ++ " " ++ lastName fd in
  let call1 := Fetch contactsUrl (contactInit token fd) in
  sc_email (contact sm) = email fd
  /\ sc_firstName (contact sm) = firstName fd
  /\ sc_lastName (contact sm) = lastName fd
  /\ sd_name (deal sm) = JStr dealName
  /\ (exists response1 body1 response2 body2,
        fetch_reply h log contactsUrl (contactInit token fd) = Returns response1
        /\ json response1 = Returns body1
        /\ fetch_reply h (log ++ [call1])%list dealsUrl (dealInit token dealName)
           = Returns response2
        /\ json response2 = Returns body2
        /\ sc_id (contact sm) = read_prop_opt body1 "id"
        /\ sd_id (deal sm) = read_prop_opt body2 "id")
  /\ (exists r4, nth_error (steps res) 3 = Some r4 /\ emailId sm = data_prop r4 "id").
Proof.
  intros E Sm token dealName call1. apply runDiagnosticFlow_run in E.
  destruct E as [T | r1 l1 T E1 S1 | r1 l1 r2 l2 T E1 S1 E2 S2
                 | r1 l1 r2 l2 r3 l3 T E1 S1 E2 S2 E3 S3
                 | r1 l1 r2 l2 r3 l3 r4 l4 T E1 S1 E2 S2 E3 S3 E4];
    try discriminate Sm.
  injection Sm as <-. cbn.
  pose proof E1 as Q1. apply createContact_success in Q1.
  destruct (proj1 Q1 S1) as (response1 & body1 & F1 & _ & J1 & _ & _ & ->).
  clear Q1.
  assert (L1 : l1 = (log ++ [call1])%list).
  { destruct (createContact_returns h log fd) as (r & E & _).
    rewrite E1 in E. now injection E as _ ->. }
  subst l1.
  pose proof E2 as Q2. apply createDeal_success in Q2.
  destruct (proj1 Q2 S2) as (response2 & body2 & F2 & _ & J2 & _ & _ & ->).
  clear Q2.
  repeat split.
  - exists response1, body1, response2, body2. repeat split; assumption.
  - exists r4. split; reflexivity.
Qed.

(** X8. Creating the contact succeeds exactly when the CRM answers 2xx
    with a body that is neither [null] nor [undefined] and whose [id] can
    be printed in the message (it is not an object with a [toString]
    property of its own, nor an array that holds one); the result then
    carries the [id] of the body and the email and names of its
    [properties].  A 2xx answer with the body [null], or with an [id] that
    cannot be printed, is reported as a failure, with the message of the
    [TypeError] and no data. *)
Theorem X8_createContact_success h log fd r log' :
  createContact fd h log = (Returns r, log') ->
  let reply := fetch_reply h log contactsUrl (contactInit (HUBSPOT_ACCESS_TOKEN h) fd) in
  (sr_success r = true <->
   exists response data,
     reply = Returns response /\ ok response = true
     /\ json response = Returns data /\ readable data
     /\ convertible (read_prop_opt data "id") = true)
  /\ (forall response data,
        reply = Returns response -> ok response = true ->
        json response = Returns data -> readable data ->
        convertible (read_prop_opt data "id") = true ->
        sr_data r = Some (JObj
          [("id", read_prop_opt data "id");
           ("email", read_prop_opt (read_prop_opt data "properties") "email");
           ("firstName", read_prop_opt (read_prop_opt data "properties") "firstname");
           ("lastName", read_prop_opt (read_prop_opt data "properties") "lastname")])
        /\ sr_message r
           = JStr ("Contact created (ID: " ++ toStr (read_prop_opt data "id") ++ ")"))
  /\ (forall response,
        reply = Returns response -> ok response = true ->
        json response = Returns JNull ->
        r = caught "Create Contact"
              (JsError "Cannot read properties of null (reading 'id')")
              "Failed to create contact")
  /\ (forall response data,
        reply = Returns response -> ok response = true ->
        json response = Returns data -> readable data ->
        convertible (read_prop_opt data "id") = false ->
        r = caught "Create Contact"
              (JsError "Cannot convert object to primitive value")
              "Failed to create contact").
Proof.
  intros E reply. pose proof E as Q. apply createContact_success in Q.
  destruct Q as [Only If]. fold reply in Only, If.
  pose proof (createContact_cases h log fd) as C.
  rewrite E in C. cbn [fst] in C. cbv zeta in C. fold reply in C.
  split; [split | split; [| split]].
  - intros S. destruct (Only S) as (response & data & F & K & J & Rd & Cv & _).
    eauto 7.
  - intros (response & data & F & K & J & Rd & Cv).
    rewrite F, J, K, (read_prop_readable _ Rd) in C. unfold print in C.
    rewrite Cv in C. injection C as ->. reflexivity.
  - intros response data F K J Rd Cv.
    rewrite F, J, K, (read_prop_readable _ Rd) in C. unfold print in C.
    rewrite Cv in C. injection C as ->. split; reflexivity.
  - intros response F K J. rewrite F, J, K in C. injection C as ->. reflexivity.
  - intros response data F K J Rd Cv.
    rewrite F, J, K, (read_prop_readable _ Rd) in C. unfold print in C.
    rewrite Cv in C. injection C as ->. reflexivity.
Qed.

(** X9. The deal is named "Diagnostic - " followed by the first and the
    last name: this name is sent as [dealname], with the pipeline "default",
    the stage "appointmentscheduled" and the amount "0", and a successful
    result reports the name that was sent, whatever the CRM echoed.  The
    step succeeds exactly on a 2xx answer with a body that is neither
    [null] nor [undefined] and whose [id] can be printed in the message; an
    [id] that cannot be printed (an object with a [toString] property of
    its own, or an array that holds one) makes the step fail with the
    message of the [TypeError] and no data. *)
Theorem X9_createDeal_name h log first last r log' :
  createDeal first last h log = (Returns r, log') ->
  let dealName := "Diagnostic - " ++ first ++ " " ++ last in
  let reply := fetch_reply h log dealsUrl (dealInit (HUBSPOT_ACCESS_TOKEN h) dealName) in
  (exists init,
     log' = (log ++ [Fetch dealsUrl init])%list
     /\ body init = Some (JObj [("properties",
                            JObj [("dealname", JStr dealName);
                                  ("pipeline", JStr "default");
                                  ("dealstage", JStr "appointmentscheduled");
                                  ("amount", JStr "0")])]))
  /\ (sr_success r = true <->
      exists response data,
        reply = Returns response /\ ok response = true
        /\ json response = Returns data /\ readable data
        /\ convertible (read_prop_opt data "id") = true)
  /\ (sr_success r = true ->
      data_prop r "name" = JStr dealName
      /\ exists data, data_prop r "id" = read_prop_opt data "id")
  /\ (forall response data,
        reply = Returns response -> ok response = true ->
        json response = Returns data -> readable data ->
        convertible (read_prop_opt data "id") = false ->
        r = caught "Create Deal"
              (JsError "Cannot convert object to primitive value")
              "Failed to create deal").
Proof.
  intros E dealName reply. pose proof E as Q. apply createDeal_success in Q.
  destruct Q as [Only If].
  fold dealName in Only, If. fold reply in Only, If.
  pose proof (createDeal_cases h log first last) as C.
  rewrite E in C. cbn [fst] in C. cbv zeta in C.
  fold dealName in C. fold reply in C.
  split; [| split; [split | split]].
  - destruct (createDeal_returns h log first last) as (r' & E' & _).
    rewrite E in E'. injection E' as _ ->. eexists. split; reflexivity.
  - intros S. destruct (Only S) as (response & data & F & K & J & Rd & Cv & _).
    eauto 7.
  - intros (response & data & F & K & J & Rd & Cv).
    rewrite F, J, K, (read_prop_readable _ Rd) in C. unfold print in C.
    rewrite Cv in C. injection C as ->. reflexivity.
  - intros S. destruct (Only S) as (response & data & _ & _ & _ & _ & _ & ->).
    split; [reflexivity | exists data; reflexivity].
  - intros response data F K J Rd Cv.
    rewrite F, J, K, (read_prop_readable _ Rd) in C. unfold print in C.
    rewrite Cv in C. injection C as ->. reflexivity.
Qed.

(** X10. The association succeeds exactly when the CRM answers 2xx.  The
    body of a 2xx answer is not read: the step succeeds even when the body
    does not parse, and its data are the two ids it was called with. *)
Theorem X10_association_success h log dealId contactId r log' :
  associateDealToContact dealId contactId h log = (Returns r, log') ->
  let reply := fetch_reply h log (associationUrl dealId contactId)
                 (associationInit (HUBSPOT_ACCESS_TOKEN h)) in
  (sr_success r = true <->
   exists response, reply = Returns response /\ ok response = true)
  /\ (sr_success r = true ->
      sr_data r = Some (JObj [("dealId", dealId); ("contactId", contactId)])
      /\ sr_message r = JStr ("Deal " ++ toStr dealId
                              ++ " associated to Contact " ++ toStr contactId)).
Proof.
  intros E reply. pose proof E as Q. apply associateDealToContact_success in Q.
  destruct Q as [Only If].
  fold reply in Only, If.
  split; [split |].
  - intros S. destruct (Only S) as (response & F & K & _). eauto.
  - intros (response & F & K).
    pose proof (associateDealToContact_cases h log dealId contactId) as C.
    rewrite E in C. cbn [fst] in C. cbv zeta in C. fold reply in C.
    rewrite F, K in C. injection C as ->. reflexivity.
  - intros S. destruct (Only S) as (response & _ & _ & ->). split; reflexivity.
Qed.

(** X11. When the CRM refuses the contact or the deal with a status that
    is not 2xx, the step fails and hands back the raw body as data; its
    message is the body's [message] when that is truthy and
    "HubSpot API error: " followed by the status otherwise.  Unlike the
    association, these two steps do not tolerate a body that does not
    parse: the parse error is what they report, without data. *)
Theorem X11_refused_contact_or_deal h log fd first last response :
  ok response = false ->
  let token := HUBSPOT_ACCESS_TOKEN h in
  let dealName := "Diagnostic - " ++ first ++ " " ++ last in
  let refused step data :=
    {| sr_step := step;
       sr_success := false;
       sr_message := if truthy (read_prop_opt data "message")
                     then read_prop_opt data "message"
                     else JStr ("HubSpot API error: " ++ status_toStr response);
       sr_data := Some data |} in
  (fetch_reply h log contactsUrl (contactInit token fd) = Returns response ->
     (forall data, json response = Returns data -> readable data ->
        fst (createContact fd h log) = Returns (refused "Create Contact" data))
     /\ (forall e, json response = Throws e ->
        fst (createContact fd h log)
        = Returns (caught "Create Contact" e "Failed to create contact")))
  /\ (fetch_reply h log dealsUrl (dealInit token dealName) = Returns response ->
     (forall data, json response = Returns data -> readable data ->
        fst (createDeal first last h log) = Returns (refused "Create Deal" data))
     /\ (forall e, json response = Throws e ->
        fst (createDeal first last h log)
        = Returns (caught "Create Deal" e "Failed to create deal"))).
Proof.
  intros K token dealName refused. split; intros F.
  - rewrite createContact_cases. cbv zeta. fold token. rewrite F, K.
    split.
    + intros data J Rd. rewrite J, (read_prop_readable _ Rd). reflexivity.
    + intros e J. rewrite J. reflexivity.
  - rewrite createDeal_cases. cbv zeta. fold token dealName. rewrite F, K.
    split.
    + intros data J Rd. rewrite J, (read_prop_readable _ Rd). reflexivity.
    + intros e J. rewrite J. reflexivity.
Qed.

(** X12. The simple contact creation has no guard on the token: on every
    host it sends exactly one request to the contacts endpoint, and when
    the token is not set the request goes out with the header
    "Bearer undefined".  It never throws, and it answers with the success,
    message and data of step 1. *)
Theorem X12_createHubSpotContact_unguarded h log fd :
  exists answer init r,
    createHubSpotContact fd h log
    = (Returns answer, (log ++ [Fetch contactsUrl init])%list)
    /\ fst (createContact fd h log) = Returns r
    /\ cr_success answer = sr_success r
    /\ cr_message answer = sr_message r
    /\ cr_data answer = sr_data r
    /\ method init = "POST"
    /\ In ("Authorization", "Bearer " ++ env_toStr (HUBSPOT_ACCESS_TOKEN h))
          (headers init)
    /\ (HUBSPOT_ACCESS_TOKEN h = None ->
        In ("Authorization", "Bearer undefined") (headers init)).
Proof.
  destruct (createContact_returns h log fd) as (r & E & _).
  unfold createHubSpotContact, bind. rewrite E. cbn.
  do 3 eexists. split; [reflexivity |].
  split; [reflexivity |]. cbn. repeat split; try tauto.
  intros ->. cbn. tauto.
Qed.




(** *** Properties of the standalone test email *)

(** [includes] with the one-character string "@" finds the character. *)
Lemma includes_at (s : string) :
  includes s "@" = true <-> In "@"%char (list_ascii_of_string s).
Proof.
  unfold includes. induction s as [| c s IH].
  - cbn. split; [discriminate | tauto].
  - change (index 0 "@" (String c s))
      with (if prefix "@" (String c s) then Some 0
            else match index 0 "@" s with
                 | Some n => Some (S n)
                 | None => None
                 end).
    change (prefix "@" (String c s))
      with (if ascii_dec "@" c then prefix "" s else false).
    cbn [list_ascii_of_string In].
    destruct (ascii_dec "@" c) as [<- | Other].
    + assert (P : prefix "" s = true) by (destruct s; reflexivity).
      rewrite P. split; auto.
    + destruct (index 0 "@" s) as [n |].
      * split; [intros _; right; now apply IH | reflexivity].
      * split; [discriminate |].
        intros [Same | Later]; [congruence | now apply IH].
Qed.

Lemma includes_not_at (s : string) :
  includes s "@" = false <-> ~ In "@"%char (list_ascii_of_string s).
Proof.
  rewrite <- includes_at. destruct (includes s "@"); split; congruence.
Qed.

(** What the test email action returns and sends, by cases. *)
Lemma sendTestEmail_cases (toEmail : string) (m : mailer) (sent : list TestSend) :
  let key := mailer_RESEND_API_KEY m in
  let options := testEmail toEmail (mailer_clock m sent) in
  let send := {| test_apiKey := Resend key; test_options := options |} in
  let failed message := {| rr_success := false;
                           rr_message := JStr message;
                           rr_data := None |} in
  sendTestEmail toEmail m sent
  = if env_falsy key then
      (Returns (failed "Resend API key is not configured"), sent)
    else if includes toEmail "@" then
      match mailer_new_Resend m (Resend key) with
      | Throws e => (Throws e, sent)
      | Returns _ =>
      (Returns
         match mailer_reply m sent (Resend key) options with
         | Throws e => failed (error_message e "Failed to send email")
         | Returns r =>
             if truthy (send_error r) then
               {| rr_success := false;
                  rr_message := js_or (read_prop_opt (send_error r) "message")
                                  (JStr "Failed to send email");
                  rr_data := Some (send_error r) |}
             else
               {| rr_success := true;
                  rr_message := JStr ("Test email sent successfully to "
                                      ++ toEmail ++ "!");
                  rr_data := Some (JObj [("id", read_prop_opt (send_data r) "id");
                                         ("sentTo", JStr toEmail)]) |}
         end, (sent ++ [send])%list)
      end
    else
      (Returns (failed "Please enter a valid email address"), sent).
Proof.
  cbv zeta. unfold sendTestEmail.
  destruct (env_falsy (mailer_RESEND_API_KEY m)); [reflexivity |].
  destruct (includes toEmail "@") eqn:At.
  - assert (NonEmpty : (toEmail =? "") = false).
    { destruct toEmail; [discriminate At | reflexivity]. }
    rewrite NonEmpty. cbn [orb negb].
    destruct (mailer_new_Resend m _) as [client | e]; [| reflexivity].
    destruct (mailer_reply m sent _ _) as [r | e]; [| reflexivity].
    destruct (truthy (send_error r)) eqn:Tr; [| reflexivity].
    destruct (send_error r); cbn in Tr; try discriminate Tr; reflexivity.
  - rewrite orb_true_r. reflexivity.
Qed.

(** X16. The test email action checks the key before the address.
    Without the key it answers "Resend API key is not configured" whatever
    the address; with the key and an address that holds no "@" (the empty
    address among them) it answers "Please enter a valid email address".
    In both cases nothing is sent. *)
Theorem X16_test_email_guards toEmail m sent :
  let failed message := {| rr_success := false;
                           rr_message := JStr message;
                           rr_data := None |} in
  (env_falsy (mailer_RESEND_API_KEY m) = true ->
   sendTestEmail toEmail m sent
   = (Returns (failed "Resend API key is not configured"), sent))
  /\ (env_falsy (mailer_RESEND_API_KEY m) = false ->
      ~ In "@"%char (list_ascii_of_string toEmail) ->
      sendTestEmail toEmail m sent
      = (Returns (failed "Please enter a valid email address"), sent)).
Proof.
  intros failed. rewrite sendTestEmail_cases. cbv zeta. split.
  - intros ->. reflexivity.
  - intros -> No. apply includes_not_at in No. rewrite No. reflexivity.
Qed.

(** X17. The test email action sends an email exactly when the key is
    configured, the address holds an "@" and the constructor of the client
    returns; it then sends exactly one, with that key, to that address,
    from the fixed sender and under the fixed subject.  When the
    constructor throws, nothing is sent. *)
Theorem X17_test_email_sent_iff toEmail m sent :
  let sent' := snd (sendTestEmail toEmail m sent) in
  (sent' <> sent <->
   env_falsy (mailer_RESEND_API_KEY m) = false
   /\ In "@"%char (list_ascii_of_string toEmail)
   /\ exists client,
        mailer_new_Resend m (Resend (mailer_RESEND_API_KEY m)) = Returns client)
  /\ (sent' = sent
      \/ exists apiKey,
           mailer_RESEND_API_KEY m = Some apiKey
           /\ apiKey <> ""
           /\ sent' = (sent ++ [{| test_apiKey := apiKey;
                                   test_options :=
                                     {| test_from := "QuantaLynk <noreply@updates.quantalynk.com>";
                                        test_to := toEmail;
                                        test_subject := "QuantaLynk POC - Test Email";
                                        test_html_sentAt := mailer_clock m sent |} |}])%list).
Proof.
  intros sent'. subst sent'. rewrite sendTestEmail_cases. cbv zeta.
  destruct (env_falsy (mailer_RESEND_API_KEY m)) eqn:K; cbn [snd].
  { split; [| now left]. split; [congruence | intros [Q _]; discriminate Q]. }
  destruct (includes toEmail "@") eqn:At; cbn [snd].
  2: { apply includes_not_at in At. split; [| now left].
       split; [congruence | tauto]. }
  apply includes_at in At.
  destruct (mailer_new_Resend m _) as [client | e]; cbn [snd].
  - split.
    + split; [eauto |]. intros _ Q.
      apply (f_equal (@length _)) in Q. rewrite length_app in Q. cbn in Q. lia.
    + right. destruct (env_configured _ K) as (apiKey & Ky & Ne).
      exists apiKey. rewrite Ky. cbn. repeat split; assumption.
  - split; [| now left].
    split; [congruence | intros (_ & _ & client & Q); discriminate Q].
Qed.

(** X18. The test email action answers unless the constructor of the
    client throws: it throws exactly when the key is configured, the
    address holds an "@" and the constructor throws, and then what the
    constructor threw, with nothing sent.  When it answers, it reports
    success exactly when the key is configured, the address holds an "@"
    and the provider answers without an error; the data are then the
    provider's [id] and the address.  An error object of the provider is
    handed back as data, and an error thrown by the client's [send] is
    reported by its message. *)
Theorem X18_test_email_outcome toEmail m sent :
  let key := mailer_RESEND_API_KEY m in
  let construct := mailer_new_Resend m (Resend key) in
  let reply := mailer_reply m sent (Resend key)
                 (testEmail toEmail (mailer_clock m sent)) in
  (forall e,
     fst (sendTestEmail toEmail m sent) = Throws e <->
     env_falsy key = false
     /\ In "@"%char (list_ascii_of_string toEmail)
     /\ construct = Throws e)
  /\ (forall e,
        fst (sendTestEmail toEmail m sent) = Throws e ->
        snd (sendTestEmail toEmail m sent) = sent)
  /\ forall answer,
       fst (sendTestEmail toEmail m sent) = Returns answer ->
       (rr_success answer = true <->
        env_falsy key = false
        /\ In "@"%char (list_ascii_of_string toEmail)
        /\ exists r, reply = Returns r /\ truthy (send_error r) = false)
       /\ (rr_success answer = true ->
           exists r,
             reply = Returns r
             /\ rr_data answer = Some (JObj [("id", read_prop_opt (send_data r) "id");
                                             ("sentTo", JStr toEmail)])
             /\ rr_message answer
                = JStr ("Test email sent successfully to " ++ toEmail ++ "!"))
       /\ (env_falsy key = false -> In "@"%char (list_ascii_of_string toEmail) ->
           (forall r, reply = Returns r -> truthy (send_error r) = true ->
              rr_success answer = false /\ rr_data answer = Some (send_error r))
           /\ (forall e, reply = Throws e ->
              rr_success answer = false /\ rr_data answer = None
              /\ rr_message answer = JStr (error_message e "Failed to send email"))).
Proof.
  intros key construct reply. rewrite sendTestEmail_cases. cbv zeta.
  fold key. fold construct. fold reply.
  destruct (env_falsy key) eqn:K; cbn [fst snd].
  { split; [intros e; split; [discriminate | intros [Q _]; discriminate Q] |].
    split; [reflexivity |].
    intros answer Q. injection Q as <-. cbn.
    split; [split; [discriminate | intros [Q _]; discriminate Q] |].
    split; discriminate. }
  destruct (includes toEmail "@") eqn:At; cbn [fst snd].
  2: { apply includes_not_at in At.
       split; [intros e; split; [discriminate | tauto] |].
       split; [reflexivity |].
       intros answer Q. injection Q as <-. cbn.
       split; [split; [discriminate | tauto] |].
       split; [discriminate | tauto]. }
  apply includes_at in At.
  destruct construct as [client | thrown_error]; cbn [fst snd].
  2: { split; [| split; [reflexivity | discriminate]].
       intros e. split.
       - intros Q. injection Q as <-. now repeat split.
       - intros (_ & _ & Q). injection Q as <-. reflexivity. }
  split; [intros e; split; [discriminate | intros (_ & _ & Q); discriminate Q] |].
  split; [discriminate |].
  intros answer Q. injection Q as <-.
  destruct reply as [r | e] eqn:R.
  2: { cbn.
       split; [split; [discriminate | intros (_ & _ & r & Q & _); discriminate Q] |].
       split; [discriminate |]. intros _ _. split.
       - intros r Q. discriminate Q.
       - intros e' Q. injection Q as <-. repeat split. }
  destruct (truthy (send_error r)) eqn:Tr; cbn.
  - split; [split; [discriminate |] |].
    { intros (_ & _ & r' & Q & Tr'). injection Q as <-. congruence. }
    split; [discriminate |]. intros _ _. split.
    + intros r' Q _. injection Q as <-. split; reflexivity.
    + intros e Q. discriminate Q.
  - split; [split; [intros _; eauto | reflexivity] |].
    split; [intros _; exists r; repeat split |].
    intros _ _. split.
    + intros r' Q Tr'. injection Q as <-. congruence.
    + intros e Q. discriminate Q.
Qed.

(** ** What the flow can throw *)

(** X22. The flow throws only what the constructor of the email client
    throws.  Whatever the CRM and the provider answer (a status that is
    not 2xx, a [fetch] or a [send] that throws, a body that does not parse
    or is not an object), [runDiagnosticFlow] returns a result, unless the
    token and the email key are configured and [new Resend] throws; then
    the flow throws that error.  On a host whose constructor never throws
    the flow always returns.  Each of the three CRM steps returns on any
    arguments a [StepResult] carrying its own name, which is a success
    only if the upstream call was answered without an error, and surfaces
    an error thrown by the call or by the parsing of its answer as
    [success = false] with the error's message.  The email step does the
    same for the provider's call, unless the constructor throws. *)
Theorem X22_throws_only_by_constructor h log fd ne :
  ((exists res log', runDiagnosticFlow fd ne h log = (Returns res, log'))
   \/ (exists e log',
         runDiagnosticFlow fd ne h log = (Throws e, log')
         /\ env_falsy (HUBSPOT_ACCESS_TOKEN h) = false
         /\ env_falsy (RESEND_API_KEY h) = false
         /\ new_Resend h (Resend (RESEND_API_KEY h)) = Throws e))
  /\ ((forall e, new_Resend h (Resend (RESEND_API_KEY h)) <> Throws e) ->
      exists res log', runDiagnosticFlow fd ne h log = (Returns res, log'))
  /\ (let reply := fetch_reply h log contactsUrl
                     (contactInit (HUBSPOT_ACCESS_TOKEN h) fd) in
      exists r log',
        createContact fd h log = (Returns r, log')
        /\ sr_step r = "Create Contact"
        /\ (sr_success r = true ->
            exists response data,
              reply = Returns response
              /\ ok response = true /\ json response = Returns data)
        /\ surfaced reply "Create Contact" "Failed to create contact" r
        /\ (forall response, reply = Returns response ->
            surfaced (json response) "Create Contact" "Failed to create contact" r))
  /\ (forall first last,
      let reply := fetch_reply h log dealsUrl
                     (dealInit (HUBSPOT_ACCESS_TOKEN h)
                        ("Diagnostic - " ++ first ++ " " ++ last)) in
      exists r log',
        createDeal first last h log = (Returns r, log')
        /\ sr_step r = "Create Deal"
        /\ (sr_success r = true ->
            exists response data,
              reply = Returns response
              /\ ok response = true /\ json response = Returns data)
        /\ surfaced reply "Create Deal" "Failed to create deal" r
        /\ (forall response, reply = Returns response ->
            surfaced (json response) "Create Deal" "Failed to create deal" r))
  /\ (forall dealId contactId,
      let reply := fetch_reply h log (associationUrl dealId contactId)
                     (associationInit (HUBSPOT_ACCESS_TOKEN h)) in
      exists r log',
        associateDealToContact dealId contactId h log = (Returns r, log')
        /\ sr_step r = "Associate Deal to Contact"
        /\ (sr_success r = true ->
            exists response, reply = Returns response /\ ok response = true)
        /\ surfaced reply "Associate Deal to Contact"
             "Failed to associate deal to contact" r)
  /\ (forall toEmail contactData dealData,
      let reply := send_reply h log (Resend (RESEND_API_KEY h))
                     (confirmationEmail toEmail contactData dealData (clock h log)) in
      (exists r log',
         sendConfirmationEmail toEmail contactData dealData h log = (Returns r, log')
         /\ sr_step r = "Send Confirmation Email"
         /\ (sr_success r = true ->
             env_falsy (RESEND_API_KEY h) = false
             /\ exists sent, reply = Returns sent /\ truthy (send_error sent) = false)
         /\ (env_falsy (RESEND_API_KEY h) = false ->
             surfaced reply "Send Confirmation Email" "Failed to send email" r))
      \/ (exists e,
            sendConfirmationEmail toEmail contactData dealData h log = (Throws e, log)
            /\ env_falsy (RESEND_API_KEY h) = false
            /\ new_Resend h (Resend (RESEND_API_KEY h)) = Throws e)).
Proof.
  assert (Flow : (exists res log', runDiagnosticFlow fd ne h log = (Returns res, log'))
                 \/ (exists e log',
                       runDiagnosticFlow fd ne h log = (Throws e, log')
                       /\ env_falsy (HUBSPOT_ACCESS_TOKEN h) = false
                       /\ env_falsy (RESEND_API_KEY h) = false
                       /\ new_Resend h (Resend (RESEND_API_KEY h)) = Throws e)).
  { destruct (FlowRun_or_throw h log fd ne)
      as [(res & log' & R)
         | (e & r1 & log1 & r2 & log2 & r3 & log3 & T & _ & _ & _ & _ & _ & _ & K & N & E)].
    - left. exists res, log'. now apply FlowRun_sound.
    - right. exists e, log3. repeat split; assumption. }
  split; [exact Flow |].
  split.
  { intros Constructs. destruct Flow as [Returned | (e & _ & _ & _ & _ & N)].
    - exact Returned.
    - destruct (Constructs e N). }
  split.
  { destruct (createContact_returns h log fd) as (r & E & Rest).
    exists r. eexists. split; [exact E | exact Rest]. }
  split.
  { intros first last.
    destruct (createDeal_returns h log first last) as (r & E & Rest).
    exists r. eexists. split; [exact E | exact Rest]. }
  split.
  { intros dealId contactId.
    destruct (associateDealToContact_returns h log dealId contactId)
      as (r & E & Rest).
    exists r. eexists. split; [exact E | exact Rest]. }
  intros toEmail contactData dealData reply.
  destruct (sendConfirmationEmail toEmail contactData dealData h log)
    as [[r | e] log'] eqn:E.
  - left. exists r, log'. split; [reflexivity |].
    pose proof E as Q. apply sendConfirmationEmail_returns in Q.
    destruct Q as (_ & Rest). exact Rest.
  - right. exists e. pose proof E as Q. apply sendConfirmationEmail_throws in Q.
    destruct Q as (K & N & ->). repeat split; assumption.
Qed.

(** X23. The ids the orchestrator hands on can be printed.  After a
    successful Create Contact and a successful Create Deal, the [id] of
    each step's data is a value these steps have printed in their own
    messages: its conversion to a string returns, so the template literals
    of the association step and of the email, which print these ids again,
    do not throw. *)
Theorem X23_ids_handed_on_can_be_printed h log fd r1 log1 r2 log2 :
  createContact fd h log = (Returns r1, log1) ->
  createDeal (firstName fd) (lastName fd) h log1 = (Returns r2, log2) ->
  sr_success r1 = true -> sr_success r2 = true ->
  let contactId := data_prop r1 "id" in
  let dealId := data_prop r2 "id" in
  convertible contactId = true
  /\ convertible dealId = true
  /\ print contactId = Returns (toStr contactId)
  /\ print dealId = Returns (toStr dealId)
  /\ sr_message r1 = JStr ("Contact created (ID: " ++ toStr contactId ++ ")").
Proof.
  intros E1 E2 S1 S2 contactId dealId.
  apply createContact_success in E1. apply createDeal_success in E2.
  destruct (proj1 E1 S1) as (response1 & data1 & _ & _ & _ & _ & Cv1 & R1).
  destruct (proj1 E2 S2) as (response2 & data2 & _ & _ & _ & _ & Cv2 & R2).
  assert (Id1 : contactId = read_prop_opt data1 "id") by (subst r1; reflexivity).
  assert (Id2 : dealId = read_prop_opt data2 "id") by (subst r2; reflexivity).
  unfold print. rewrite Id1, Id2, Cv1, Cv2. subst r1. repeat split.
Qed.

End Flow.

(** The type of numbers is implicit in values and outcomes from here on. *)
Arguments JUndefined {number}.
Arguments JNull {number}.
Arguments JBool {number} b.
Arguments JNum {number} n.
Arguments JStr {number} s.
Arguments JArr {number} items.
Arguments JObj {number} fields.
Arguments JsError {number} msg.
Arguments JsOther {number} v.
Arguments Returns {number A} a.
Arguments Throws {number A} e.

(** ** Proofs about the webhook store *)

Section WebhookStore.

Import Webhook.

Variable json_value : Type.

Local Abbreviation WebhookEntry := (WebhookEntry json_value).
Local Abbreviation NextRequest := (NextRequest json_value).

Lemma firstn_app_firstn (A : Type) (n : nat) (l1 l2 : list A) :
  firstn n (l1 ++ firstn n l2)%list = firstn n (l1 ++ l2)%list.
Proof.
  rewrite !firstn_app, firstn_firstn.
  f_equal. f_equal. lia.
Qed.

(** Pushing in front and popping when over capacity keeps the first five. *)
Lemma unshift_pop (entry : WebhookEntry) (storage : list WebhookEntry) :
  length storage <= MAX_WEBHOOKS ->
  (if (MAX_WEBHOOKS <? length (unshift entry storage))%nat
   then pop (unshift entry storage) else unshift entry storage)
  = firstn MAX_WEBHOOKS (entry :: storage).
Proof.
  intros Len. unfold unshift, pop.
  destruct (Nat.ltb_spec MAX_WEBHOOKS (length (entry :: storage))) as [Over | Fits].
  - rewrite removelast_firstn_len. f_equal. cbn [length] in *. lia.
  - symmetry. apply firstn_all2. exact Fits.
Qed.

Lemma posts_from (requests : list NextRequest) (storage : list WebhookEntry) :
  length storage <= MAX_WEBHOOKS ->
  posts requests storage
  = firstn MAX_WEBHOOKS (rev (accepted requests) ++ storage)%list.
Proof.
  revert storage. induction requests as [| request later IH]; intros storage Len.
  - cbn [posts accepted rev app]. symmetry. apply firstn_all2. exact Len.
  - cbn [posts accepted]. unfold POST.
    destruct (request_json request) as [p | error]; cbn [snd].
    + rewrite unshift_pop by exact Len.
      rewrite IH by apply firstn_le_length.
      rewrite firstn_app_firstn. cbn [rev]. now rewrite <- app_assoc.
    + now apply IH.
Qed.

(** C7. The webhook store never holds more than five entries and is
    ordered newest first: after any sequence of POST requests on the empty
    store it holds the five most recent accepted entries, the latest in
    front; a POST on a store of at most five entries leaves at most five;
    six posted payloads leave the five latest in the order sixth to second,
    and when the payloads are distinct the first is no longer there; GET
    on the empty store answers [count = 0] and an empty list. *)
Theorem C7_webhook_store :
  (forall requests : list NextRequest,
     let storage := posts requests [] in
     length storage <= 5
     /\ storage = firstn 5 (rev (accepted requests)))
  /\ (forall (request : NextRequest) (storage : list WebhookEntry),
        length storage <= 5 -> length (snd (POST request storage)) <= 5)
  /\ (forall (p1 p2 p3 p4 p5 p6 : json_value)
             (u1 u2 u3 u4 u5 u6 t1 t2 t3 t4 t5 t6 : string),
        let entry p u t := {| id := u; payload := p; receivedAt := t |} in
        let storage := posts [post p1 u1 t1; post p2 u2 t2; post p3 u3 t3;
                              post p4 u4 t4; post p5 u5 t5; post p6 u6 t6] [] in
        storage = [entry p6 u6 t6; entry p5 u5 t5; entry p4 u4 t4;
                   entry p3 u3 t3; entry p2 u2 t2]
        /\ length storage = 5
        /\ (NoDup [p1; p2; p3; p4; p5; p6] -> ~ In (entry p1 u1 t1) storage))
  /\ GET (@nil WebhookEntry)
     = {| get_success := true; webhooks := []; count := 0 |}.
Proof.
  split; [| split; [| split]].
  - intros requests storage. subst storage.
    rewrite posts_from by (cbn; unfold MAX_WEBHOOKS; lia).
    rewrite app_nil_r. split; [apply firstn_le_length | reflexivity].
  - intros request storage Len. unfold POST.
    destruct (request_json request) as [p | error]; cbn [snd]; [| exact Len].
    rewrite unshift_pop by exact Len. apply firstn_le_length.
  - intros. subst storage entry. cbn. split; [reflexivity | split; [reflexivity |]].
    intros Distinct Stored.
    apply NoDup_cons_iff in Distinct. destruct Distinct as [Fresh _].
    apply Fresh. cbn.
    repeat (destruct Stored as [Same | Stored];
            [injection Same as _ -> _; tauto |]).
    destruct Stored.
  - reflexivity.
Qed.

Lemma accepted_app (requests later : list NextRequest) :
  accepted (requests ++ later) = (accepted requests ++ accepted later)%list.
Proof.
  induction requests as [| request requests IH]; [reflexivity |].
  cbn [app accepted]. destruct (request_json request); cbn [app]; now rewrite IH.
Qed.

Lemma accepted_parses (requests : list NextRequest) :
  accepted (filter (@parses json_value) requests) = accepted requests.
Proof.
  induction requests as [| request requests IH]; [reflexivity |].
  cbn [filter]. unfold parses at 1.
  destruct (request_json request) eqn:J; cbn [accepted]; rewrite ?J; now rewrite IH.
Qed.

(** X19. A request whose body does not parse is answered with status 400,
    [success = false], the message "Failed to process webhook" and the
    error's message ("Unknown error" when what was thrown is not an
    [Error]); it leaves the store as it was.  On a store of at most five
    entries, dropping the rejected requests from a sequence of requests
    does not change the store it leaves. *)
Theorem X19_rejected_requests :
  (forall (request : NextRequest) (storage : list WebhookEntry)
          (error : option string),
     request_json request = Unparsable json_value error ->
     POST request storage
     = ({| post_status := 400;
           post_success := false;
           post_message := "Failed to process webhook";
           post_id := None;
           post_receivedAt := None;
           post_error := Some match error with
                              | Some message => message
                              | None => "Unknown error"
                              end |}, storage))
  /\ (forall (requests : list NextRequest) (storage : list WebhookEntry),
        length storage <= 5 ->
        posts requests storage = posts (filter (@parses json_value) requests) storage).
Proof.
  split.
  - intros request storage error J. unfold POST. rewrite J. reflexivity.
  - intros requests storage Len.
    rewrite !posts_from by exact Len. now rewrite accepted_parses.
Qed.

(** X20. A request whose body parses is answered with status 200 and the
    id and time given to the new entry, and a GET right after lists that
    entry first.  On a store of at most five entries the GET then counts
    one more entry than before, up to five, and lists the new entry
    followed by the former ones, the fifth of them dropped. *)
Theorem X20_post_then_get (request : NextRequest) (storage : list WebhookEntry) p :
  request_json request = Parsed p ->
  let entry := {| id := randomUUID request;
                  payload := p;
                  receivedAt := toISOString request |} in
  let answer := fst (POST request storage) in
  let listed := GET (snd (POST request storage)) in
  post_status answer = 200
  /\ post_success answer = true
  /\ post_id answer = Some (randomUUID request)
  /\ post_receivedAt answer = Some (toISOString request)
  /\ hd_error (webhooks listed) = Some entry
  /\ count listed = length (webhooks listed)
  /\ (length storage <= 5 ->
      webhooks listed = firstn 5 (entry :: storage)
      /\ count listed = Nat.min 5 (S (length storage))).
Proof.
  intros J entry answer listed. subst answer listed. unfold POST. rewrite J.
  cbn [fst snd GET webhooks count post_status post_success post_id post_receivedAt id
       receivedAt].
  fold entry. repeat split.
  - unfold unshift, pop. destruct storage as [| older storage]; [reflexivity |].
    destruct (MAX_WEBHOOKS <? length (entry :: older :: storage))%nat; reflexivity.
  - rewrite unshift_pop by assumption. reflexivity.
  - rewrite unshift_pop by assumption. rewrite length_firstn. reflexivity.
Qed.

(** X21. Entries leave the store in the order they came.  An accepted
    entry sits at the position that counts the requests accepted after it,
    as long as these are fewer than five; once five or more were accepted
    after it, the store is the one these later requests alone would have
    left. *)
Theorem X21_first_in_first_out (before later : list NextRequest) p uuid time :
  let entry := {| id := uuid; payload := p; receivedAt := time |} in
  let storage := posts (before ++ post p uuid time :: later) [] in
  let newer := length (accepted later) in
  (newer < 5 -> nth_error storage newer = Some entry)
  /\ (5 <= newer -> storage = posts later [] /\ length storage = 5).
Proof.
  intros entry storage newer. subst storage.
  rewrite !posts_from by (cbn; unfold MAX_WEBHOOKS; lia).
  rewrite !app_nil_r, accepted_app. cbn [accepted post request_json randomUUID toISOString].
  fold entry. rewrite rev_app_distr. cbn [rev]. rewrite <- !app_assoc. cbn [app].
  unfold MAX_WEBHOOKS.
  assert (L : length (rev (accepted later)) = newer) by apply length_rev.
  split; intros N.
  - rewrite nth_error_firstn.
    destruct (Nat.ltb_spec newer 5); [| lia].
    rewrite nth_error_app2 by lia. rewrite L, Nat.sub_diag. reflexivity.
  - rewrite firstn_app.
    replace (5 - length (rev (accepted later))) with 0 by lia.
    rewrite firstn_O, app_nil_r. split; [reflexivity |].
    rewrite length_firstn. lia.
Qed.

End WebhookStore.

(** ** The claims on concrete inputs *)

(** Solves [run = (Returns ?r, ?log)] and the like by running the left-hand
    side. *)
Ltac by_running :=
  lazymatch goal with
  | |- ?lhs = ?rhs =>
      let v := eval vm_compute in lhs in
      unify rhs v; vm_compute; reflexivity
  end.

Lemma C1_all_steps_succeed_witness :
  exists res sm,
    fst (demo_run nat_truthy nat_toString (demo_healthy nat)) = Returns res
    /\ success res = true
    /\ summary res = Some sm
    /\ association sm = "success"
    /\ emailSent sm = true.
Proof.
  edestruct (C1_all_steps_succeed nat_truthy nat_toString
               (demo_healthy nat) [] demo_formData demo_notificationEmail)
    as (res & sm & E & _ & S & Sm & A & Em); [by_running .. |].
  exists res, sm. unfold demo_run. rewrite E. repeat split; assumption.
Defined.

Lemma C2_email_step_fails_witness :
  exists res sm,
    fst (demo_run nat_truthy nat_toString (demo_email_down nat)) = Returns res
    /\ success res = false
    /\ message res = "Flow completed with some errors"
    /\ summary res = Some sm
    /\ emailSent sm = false.
Proof.
  edestruct (C2_email_step_fails nat_truthy nat_toString
               (demo_email_down nat) [] demo_formData demo_notificationEmail)
    as (res & sm & E & _ & S & Msg & _ & Sm & Em); [by_running .. |].
  exists res, sm. unfold demo_run. rewrite E. repeat split; assumption.
Defined.

Lemma C3_early_abort_witness :
  exists res log',
    demo_run nat_truthy nat_toString (demo_refusing nat dealsUrl) = (Returns res, log')
    /\ success res = false
    /\ message res = "Flow failed at: Create Deal"
    /\ length (steps res) = 2
    /\ summary res = None
    /\ length log' = 2.
Proof.
  destruct (C3_early_abort nat_truthy nat_toString (demo_refusing nat dealsUrl) []
              demo_formData demo_notificationEmail eq_refl) as (_ & Deal & _).
  edestruct Deal as (E & N & L); [by_running .. |].
  do 2 eexists. split; [exact E |]. cbn. repeat split.
Defined.

Lemma C4_missing_token_witness :
  exists res,
    demo_run nat_truthy nat_toString (demo_unconfigured nat) = (Returns res, [])
    /\ success res = false
    /\ steps res = []
    /\ summary res = None
    /\ message res = "HubSpot access token is not configured".
Proof.
  apply (C4_missing_token nat_truthy nat_toString
           (demo_unconfigured nat) [] demo_formData demo_notificationEmail).
  reflexivity.
Defined.

Lemma C5_association_ids_witness :
  exists res before later,
    demo_run nat_truthy nat_toString (demo_healthy nat) = (Returns res, before ++ Fetch
      "https://api.hubapi.com/crm/v3/objects/deals/202/associations/contacts/101/deal_to_contact"
      {| method := "PUT";
         headers := [("Authorization", "Bearer pat-1")];
         body := None |} :: later)%list
    /\ length before = 2
    /\ option_map (@sr_data _) (nth_error (steps res) 2)
       = Some (Some (JObj [("dealId", JStr "202"); ("contactId", JStr "101")])).
Proof.
  edestruct (C5_association_ids nat_truthy nat_toString
               (demo_healthy nat) [] demo_formData demo_notificationEmail)
    as (r3 & log3 & o & log' & later & E3 & E & N & Thr & L & D);
    [by_running .. |].
  destruct o as [res | e].
  2: { destruct (Thr e eq_refl) as (_ & _ & Q). discriminate Q. }
  exists res. do 2 eexists. split; [subst log'; exact E | split].
  - reflexivity.
  - rewrite (N res eq_refl). cbn. rewrite D; [reflexivity |].
    vm_compute in E3. injection E3 as <- _. reflexivity.
Defined.

Lemma C6_constructor_throw_escapes_witness :
  exists log',
    demo_run nat_truthy nat_toString (demo_bad_email_key nat)
    = (Throws (JsError "Cannot convert argument to a ByteString"), log')
    /\ length log' = 3.
Proof.
  edestruct (C6_constructor_throw_escapes nat_truthy nat_toString
               (demo_bad_email_key nat) [] demo_formData demo_notificationEmail)
    as (_ & Thrown & Calls);
    [reflexivity | by_running | by_running | by_running
     | reflexivity | reflexivity | reflexivity | reflexivity | reflexivity |].
  eexists. split; [exact Thrown | exact Calls].
Defined.

Lemma C8_association_not_ok_witness :
  let h := demo_refusing nat (associationUrl nat_toString (JStr "202") (JStr "101")) in
  exists r log',
    associateDealToContact nat_truthy nat_toString
      (JStr "202") (JStr "101") h [] = (Returns r, log')
    /\ sr_success r = false
    /\ sr_data r = Some (JObj [("message", JStr "Conflict")]).
Proof.
  intros h.
  edestruct (C8_association_not_ok nat_truthy nat_toString
               h [] (JStr "202") (JStr "101"))
    as (r & log' & E & S & _ & D); [by_running .. |].
  exists r, log'. repeat split; try assumption.
  apply D; [reflexivity | discriminate | discriminate].
Defined.

(** C8 as stated fails when the body of a 404 answer is the JSON value
    [null]: it parses, reading [data.message] throws, the step's [catch]
    returns a result without data, which is neither the parsed value nor
    the empty object. *)
Lemma C8_null_body_counterexample :
  let h := (demo_null_404 nat) in
  let dealId : jsval nat := JStr "202" in
  let contactId : jsval nat := JStr "101" in
  exists response r log',
    fetch_reply h [] (associationUrl nat_toString dealId contactId)
      (associationInit _ (HUBSPOT_ACCESS_TOKEN h)) = Returns response
    /\ status response = 404
    /\ ok response = false
    /\ json response = Returns JNull
    /\ associateDealToContact nat_truthy nat_toString
         dealId contactId h [] = (Returns r, log')
    /\ sr_success r = false
    /\ sr_data r = None
    /\ sr_data r <> Some JNull
    /\ sr_data r <> Some (JObj []).
Proof.
  cbv zeta. do 3 eexists.
  split; [reflexivity |]. split; [reflexivity |]. split; [reflexivity |].
  split; [reflexivity |]. split; [vm_compute; reflexivity |].
  cbn. repeat split; discriminate.
Qed.

Lemma C9_missing_email_key_witness :
  exists r,
    sendConfirmationEmail nat_truthy nat_toString
      demo_notificationEmail demo_formData
      {| sd_id := JStr "202"; sd_name := JStr "Diagnostic - Ada Lovelace" |}
      (demo_unconfigured nat) [] = (Returns r, [])
    /\ sr_success r = false
    /\ sr_step r = "Send Confirmation Email"
    /\ sr_message r = JStr "Resend API key is not configured".
Proof.
  apply (C9_missing_email_key nat_truthy nat_toString
           (demo_unconfigured nat) []).
  reflexivity.
Defined.

Lemma C10_summary_invariant_witness :
  exists res r1 r2 r3 r4,
    fst (demo_run nat_truthy nat_toString (demo_email_down nat)) = Returns res
    /\ steps res = [r1; r2; r3; r4]
    /\ sr_success r1 = true /\ sr_success r2 = true /\ sr_success r3 = true
    /\ success res = sr_success r4.
Proof.
  edestruct (C10_summary_invariant nat_truthy nat_toString
               (demo_email_down nat) [] demo_formData demo_notificationEmail)
    as (r1 & r2 & r3 & r4 & St & S1 & S2 & S3 & _ & _ & _ & S);
    [by_running .. |].
  do 5 eexists. split; [reflexivity |].
  split; [exact St |]. repeat split; assumption.
Defined.

Lemma C7_webhook_store_witness :
  let entry (n : nat) (u t : string) :=
    {| Webhook.id := u; Webhook.payload := n; Webhook.receivedAt := t |} in
  let storage :=
    Webhook.posts [Webhook.post 1 "a" "t1"; Webhook.post 2 "b" "t2";
                   Webhook.post 3 "c" "t3"; Webhook.post 4 "d" "t4";
                   Webhook.post 5 "e" "t5"; Webhook.post 6 "f" "t6"] [] in
  storage = [entry 6 "f" "t6"; entry 5 "e" "t5"; entry 4 "d" "t4";
             entry 3 "c" "t3"; entry 2 "b" "t2"]
  /\ ~ In (entry 1 "a" "t1") storage
  /\ Webhook.count (Webhook.GET (@nil (Webhook.WebhookEntry nat))) = 0.
Proof.
  destruct (C7_webhook_store nat) as (_ & _ & Six & Empty).
  destruct (Six 1 2 3 4 5 6 "a" "b" "c" "d" "e" "f" "t1" "t2" "t3" "t4" "t5" "t6")
    as (Stored & _ & Evicted).
  split; [exact Stored | split].
  - apply Evicted. repeat constructor; cbn; lia.
  - rewrite Empty. reflexivity.
Defined.

(** ** The further properties on concrete inputs *)

Lemma X1_success_iff_four_successes_witness :
  exists res log',
    demo_run nat_truthy nat_toString (demo_healthy nat) = (Returns res, log')
    /\ (success res = true <->
        length (steps res) = 4 /\ forallb (@sr_success nat) (steps res) = true).
Proof.
  edestruct (X1_success_iff_four_successes nat_truthy nat_toString
               (demo_healthy nat) [] demo_formData demo_notificationEmail)
    as [Iff _]; [by_running |].
  do 2 eexists. split; [by_running | exact Iff].
Defined.

Lemma X2_steps_shape_witness :
  exists res log',
    demo_run nat_truthy nat_toString (demo_refusing nat dealsUrl) = (Returns res, log')
    /\ map (@sr_step nat) (steps res) = ["Create Contact"; "Create Deal"]
    /\ forallb (@sr_success nat) (removelast (steps res)) = true.
Proof.
  edestruct (X2_steps_shape nat_truthy nat_toString
               (demo_refusing nat dealsUrl) [] demo_formData demo_notificationEmail)
    as (Names & _ & Last & _); [by_running |].
  do 2 eexists. split; [by_running | split; [exact Names | exact Last]].
Defined.

Lemma X3_calls_of_a_run_witness :
  exists res log',
    demo_run nat_truthy nat_toString (demo_healthy nat) = (Returns res, log')
    /\ length log' = 4
    /\ length log' <= length (steps res).
Proof.
  edestruct (X3_calls_of_a_run nat_truthy nat_toString
               (demo_healthy nat) [] demo_formData demo_notificationEmail)
    as (Log & Le & _); [by_running |].
  do 2 eexists. split; [by_running |].
  split; [reflexivity | exact Le].
Defined.


Lemma X5_email_of_the_flow_witness :
  exists res log',
    demo_run nat_truthy nat_toString (demo_healthy nat) = (Returns res, log')
    /\ forall apiKey options,
         In (EmailsSend nat apiKey options) log' ->
         apiKey = "re_1" /\ to options = "ops@example.com".
Proof.
  edestruct (X5_email_of_the_flow nat_truthy nat_toString
               (demo_healthy nat) [] demo_formData demo_notificationEmail)
    as (calls & Log & Mail); [by_running |].
  do 2 eexists. split; [by_running |].
  intros apiKey options Hin. cbn [app] in Log. rewrite Log in Hin.
  destruct (Mail apiKey options Hin) as (Ky & _ & To & _).
  injection Ky as <-. split; [reflexivity | exact To].
Defined.


Lemma X7_summary_content_witness :
  exists res log' sm,
    demo_run nat_truthy nat_toString (demo_healthy nat) = (Returns res, log')
    /\ summary res = Some sm
    /\ sc_email (contact sm) = "ada@example.com"
    /\ sd_name (deal sm) = JStr "Diagnostic - Ada Lovelace".
Proof.
  edestruct (X7_summary_content nat_truthy nat_toString
               (demo_healthy nat) [] demo_formData demo_notificationEmail)
    as (Em & _ & _ & Name & _); [by_running | by_running |].
  do 3 eexists. split; [by_running |]. split; [by_running |].
  split; [exact Em | exact Name].
Defined.

Lemma X8_createContact_success_witness :
  (exists r log',
     createContact nat_truthy nat_toString demo_formData (demo_healthy nat) []
     = (Returns r, log')
     /\ sr_success r = true
     /\ data_prop r "id" = JStr "101")
  /\ (exists log',
        createContact nat_truthy nat_toString demo_formData (demo_odd_id nat) []
        = (Returns {| sr_step := "Create Contact";
                      sr_success := false;
                      sr_message := JStr "Cannot convert object to primitive value";
                      sr_data := None |}, log')).
Proof.
  split.
  - edestruct (X8_createContact_success nat_truthy nat_toString
                 (demo_healthy nat) [] demo_formData)
      as (Iff & Data & _); [by_running |].
    do 2 eexists. split; [by_running |].
    split; [apply Iff; do 2 eexists; repeat split; discriminate |].
    reflexivity.
  - edestruct (X8_createContact_success nat_truthy nat_toString
                 (demo_odd_id nat) [] demo_formData)
      as (_ & _ & _ & Odd); [by_running |].
    eexists. etransitivity; [by_running |].
    refine (f_equal (fun r => (Returns r, _))
              (Odd _ (JObj [("id", JObj [("toString", JStr "x")])]) _ _ _ _ _));
      [reflexivity | reflexivity | reflexivity | split; discriminate | reflexivity].
Defined.

Lemma X9_createDeal_name_witness :
  (exists r log',
     createDeal nat_truthy nat_toString "Ada" "Lovelace" (demo_healthy nat) []
     = (Returns r, log')
     /\ sr_success r = true
     /\ data_prop r "name" = JStr "Diagnostic - Ada Lovelace")
  /\ (exists log',
        createDeal nat_truthy nat_toString "Ada" "Lovelace" (demo_odd_deal_id nat) []
        = (Returns {| sr_step := "Create Deal";
                      sr_success := false;
                      sr_message := JStr "Cannot convert object to primitive value";
                      sr_data := None |}, log')).
Proof.
  split.
  - edestruct (X9_createDeal_name nat_truthy nat_toString
                 (demo_healthy nat) [] "Ada" "Lovelace")
      as (_ & _ & Name & _); [by_running |].
    do 2 eexists. split; [by_running |].
    split; [reflexivity | apply Name; reflexivity].
  - edestruct (X9_createDeal_name nat_truthy nat_toString
                 (demo_odd_deal_id nat) [] "Ada" "Lovelace")
      as (_ & _ & _ & Odd); [by_running |].
    eexists. etransitivity; [by_running |].
    refine (f_equal (fun r => (Returns r, _))
              (Odd _ (JObj [("id", JArr [JObj [("toString", JNull)]])]) _ _ _ _ _));
      [reflexivity | reflexivity | reflexivity | split; discriminate | reflexivity].
Defined.

Lemma X10_association_success_witness :
  exists r log',
    associateDealToContact nat_truthy nat_toString (JStr "202") (JStr "101")
      (demo_terse nat) [] = (Returns r, log')
    /\ sr_success r = true
    /\ sr_data r = Some (JObj [("dealId", JStr "202"); ("contactId", JStr "101")]).
Proof.
  edestruct (X10_association_success nat_truthy nat_toString
               (demo_terse nat) [] (JStr "202") (JStr "101"))
    as (Iff & Data); [by_running |].
  do 2 eexists. split; [by_running |].
  assert (S : sr_success _ = true) by (apply Iff; eexists; split; reflexivity).
  split; [exact S | apply Data; exact S].
Defined.

Lemma X11_refused_contact_or_deal_witness :
  fst (createContact nat_truthy nat_toString demo_formData
         (demo_refusing nat contactsUrl) [])
  = Returns {| sr_step := "Create Contact";
               sr_success := false;
               sr_message := JStr "Conflict";
               sr_data := Some (JObj [("message", JStr "Conflict")]) |}.
Proof.
  edestruct (X11_refused_contact_or_deal nat_truthy nat_toString
               (demo_refusing nat contactsUrl) [] demo_formData "Ada" "Lovelace"
               (demo_refusal nat))
    as ((Body & _) & _); [reflexivity | reflexivity |].
  rewrite (Body (JObj [("message", JStr "Conflict")]) eq_refl).
  - reflexivity.
  - split; discriminate.
Defined.

Lemma X12_createHubSpotContact_unguarded_witness :
  exists answer init,
    createHubSpotContact nat_truthy nat_toString demo_formData (demo_unconfigured nat) []
    = (Returns answer, [Fetch contactsUrl init])
    /\ In ("Authorization", "Bearer undefined") (headers init).
Proof.
  destruct (X12_createHubSpotContact_unguarded nat_truthy nat_toString
              (demo_unconfigured nat) [] demo_formData)
    as (answer & init & r & E & _ & _ & _ & _ & _ & _ & Undefined).
  exists answer, init. split; [exact E | apply Undefined; reflexivity].
Defined.




Lemma X16_test_email_guards_witness :
  (exists answer,
     sendTestEmail nat_truthy nat_toString "not-an-address" (demo_mailer_unconfigured nat) []
     = (Returns answer, [])
     /\ rr_message answer = JStr "Resend API key is not configured")
  /\ (exists answer,
        sendTestEmail nat_truthy nat_toString "not-an-address" (demo_mailer nat) []
        = (Returns answer, [])
        /\ rr_message answer = JStr "Please enter a valid email address").
Proof.
  split.
  - destruct (X16_test_email_guards nat_truthy nat_toString "not-an-address"
                (demo_mailer_unconfigured nat) []) as [NoKey _].
    eexists. split; [apply NoKey; reflexivity | reflexivity].
  - destruct (X16_test_email_guards nat_truthy nat_toString "not-an-address"
                (demo_mailer nat) []) as [_ NoAt].
    eexists. split; [apply NoAt; [reflexivity |] | reflexivity].
    cbn. intros Hin.
    repeat (destruct Hin as [Q | Hin]; [discriminate Q |]). exact Hin.
Defined.

Lemma X17_test_email_sent_iff_witness :
  snd (sendTestEmail nat_truthy nat_toString "ops@example.com" (demo_mailer nat) [])
  <> []
  /\ snd (sendTestEmail nat_truthy nat_toString "ops.example.com" (demo_mailer nat) [])
     = []
  /\ snd (sendTestEmail nat_truthy nat_toString "ops@example.com"
            (demo_mailer_bad_key nat) [])
     = [].
Proof.
  split; [| split].
  - apply (X17_test_email_sent_iff nat_truthy nat_toString "ops@example.com"
             (demo_mailer nat) []).
    split; [reflexivity | split; [cbn; tauto | eexists; reflexivity]].
  - destruct (X17_test_email_sent_iff nat_truthy nat_toString "ops.example.com"
                (demo_mailer nat) []) as [_ [Same | (apiKey & _ & _ & Q)]].
    + exact Same.
    + vm_compute in Q. discriminate Q.
  - destruct (X17_test_email_sent_iff nat_truthy nat_toString "ops@example.com"
                (demo_mailer_bad_key nat) []) as [_ [Same | (apiKey & _ & _ & Q)]].
    + exact Same.
    + vm_compute in Q. discriminate Q.
Defined.

Lemma X18_test_email_outcome_witness :
  (exists answer,
     fst (sendTestEmail nat_truthy nat_toString "ops@example.com" (demo_mailer nat) [])
     = Returns answer
     /\ rr_success answer = true
     /\ rr_data answer = Some (JObj [("id", JStr "em_2");
                                     ("sentTo", JStr "ops@example.com")]))
  /\ sendTestEmail nat_truthy nat_toString "ops@example.com"
       (demo_mailer_bad_key nat) []
     = (Throws (JsError "Cannot convert argument to a ByteString"), []).
Proof.
  split.
  - destruct (X18_test_email_outcome nat_truthy nat_toString "ops@example.com"
                (demo_mailer nat) []) as (_ & _ & Answers).
    edestruct Answers as (Iff & Data & _); [by_running |].
    eexists. split; [reflexivity |].
    assert (S : forall A B : Prop, A -> (A -> B) -> A /\ B) by tauto.
    apply S.
    + apply Iff. split; [reflexivity | split; [cbn; tauto |]].
      eexists. split; reflexivity.
    + intros Ok. destruct (Data Ok) as (r & R & D & _).
      injection R as <-. exact D.
  - destruct (X18_test_email_outcome nat_truthy nat_toString "ops@example.com"
                (demo_mailer_bad_key nat) []) as (Throwing & Unsent & _).
    apply injective_projections.
    + apply Throwing. split; [reflexivity | split; [cbn; tauto | reflexivity]].
    + eapply Unsent. apply Throwing.
      split; [reflexivity | split; [cbn; tauto | reflexivity]].
Defined.

Lemma X22_throws_only_by_constructor_witness :
  (exists res log',
     demo_run nat_truthy nat_toString (demo_offline nat) = (Returns res, log'))
  /\ (exists e log',
        demo_run nat_truthy nat_toString (demo_bad_email_key nat) = (Throws e, log')
        /\ new_Resend (demo_bad_email_key nat) "re_€" = Throws e).
Proof.
  split.
  - apply (X22_throws_only_by_constructor nat_truthy nat_toString (demo_offline nat) []
             demo_formData demo_notificationEmail).
    intros e. discriminate.
  - destruct (X22_throws_only_by_constructor nat_truthy nat_toString
                (demo_bad_email_key nat) [] demo_formData demo_notificationEmail)
      as ([(res & log' & Returned) | (e & log' & Thrown & _ & _ & N)] & _).
    + vm_compute in Returned. discriminate Returned.
    + exists e, log'. split; [exact Thrown | exact N].
Defined.

Lemma X23_ids_handed_on_can_be_printed_witness :
  exists r1 log1 r2 log2,
    createContact nat_truthy nat_toString demo_formData (demo_healthy nat) []
    = (Returns r1, log1)
    /\ createDeal nat_truthy nat_toString "Ada" "Lovelace" (demo_healthy nat) log1
       = (Returns r2, log2)
    /\ print nat_toString (data_prop r1 "id") = Returns "101"
    /\ print nat_toString (data_prop r2 "id") = Returns "202".
Proof.
  edestruct (X23_ids_handed_on_can_be_printed nat_truthy nat_toString
               (demo_healthy nat) [] demo_formData)
    as (_ & _ & P1 & P2 & _);
    [by_running | by_running | reflexivity | reflexivity |].
  do 4 eexists. split; [by_running |]. split; [by_running |].
  split; [exact P1 | exact P2].
Defined.

Lemma X19_rejected_requests_witness :
  let bad : Webhook.NextRequest nat :=
    {| Webhook.request_json := Webhook.Unparsable nat (Some "Unexpected token");
       Webhook.randomUUID := "x";
       Webhook.toISOString := "t0" |} in
  Webhook.post_status (fst (Webhook.POST bad [])) = 400
  /\ Webhook.posts [Webhook.post 1 "a" "t1"; bad; Webhook.post 2 "b" "t2"] []
     = Webhook.posts [Webhook.post 1 "a" "t1"; Webhook.post 2 "b" "t2"] [].
Proof.
  intros bad. destruct (X19_rejected_requests nat) as [Rejected Dropped].
  split.
  - rewrite (Rejected bad [] (Some "Unexpected token") eq_refl). reflexivity.
  - apply (Dropped [Webhook.post 1 "a" "t1"; bad; Webhook.post 2 "b" "t2"] []).
    cbn. lia.
Defined.

Lemma X20_post_then_get_witness :
  let stored := {| Webhook.id := "a"; Webhook.payload := 1; Webhook.receivedAt := "t1" |} in
  let listed := Webhook.GET (snd (Webhook.POST (Webhook.post 2 "b" "t2") [stored])) in
  hd_error (Webhook.webhooks listed)
  = Some {| Webhook.id := "b"; Webhook.payload := 2; Webhook.receivedAt := "t2" |}
  /\ Webhook.count listed = 2.
Proof.
  intros stored listed.
  destruct (X20_post_then_get (Webhook.post 2 "b" "t2") [stored] eq_refl)
    as (_ & _ & _ & _ & Head & _ & Bounded).
  split; [exact Head |].
  destruct Bounded as [_ Count]; [cbn; lia | exact Count].
Defined.

Lemma X21_first_in_first_out_witness :
  nth_error
    (Webhook.posts [Webhook.post 1 "a" "t1"; Webhook.post 2 "b" "t2";
                    Webhook.post 3 "c" "t3"] []) 1
  = Some {| Webhook.id := "b"; Webhook.payload := 2; Webhook.receivedAt := "t2" |}.
Proof.
  destruct (X21_first_in_first_out [Webhook.post 1 "a" "t1"]
              [Webhook.post 3 "c" "t3"] 2 "b" "t2") as [Kept _].
  apply Kept. cbn. lia.
Defined.
